(** * ProjectAnalyzer: directory scanner, tree renderer and batched
      description pipeline of [main.py], embedded in Rocq.

    Python values are modelled as follows.
    - [str] is [string]; one [ascii] stands for one character, and the
      case functions act on the ASCII letters only.
    - [int] is [Z].
    - [Set[str]] used for membership and iteration is [gset string]; the
      result dictionaries of the description pipeline are [gmap string _].
    - dictionaries whose insertion order is observable (JSON objects,
      [file_types], [files_by_dir]) are association lists.
    - exceptions are values of [exn], identified by their class name, and
      code that may raise returns a [result].
    - the collaborators that are not part of the program (the filesystem,
      the chat model, [json.loads], the iteration order of a [set]) are
      explicit arguments. *)

From Stdlib Require Import ZArith Ascii String Permutation Lia.
From Stdlib Require Import Floats.PrimFloat.
From stdpp Require Import gmap strings list sorting pretty.

Set Warnings "-register-all".

(* ===================================================================== *)
(** * Part I: the program                                                 *)
(* ===================================================================== *)

(** ** Strings: the [str] methods and [os.path] functions that are used *)

Definition newline : string := String "010" "".

Definition is_upper (c : ascii) : bool :=
  let n := N_of_ascii c in (65 <=? n)%N && (n <=? 90)%N.

Definition lower_char (c : ascii) : ascii :=
  if is_upper c then ascii_of_N (N_of_ascii c + 32) else c.

(** [s.lower()] *)
Fixpoint lower (s : string) : string :=
  match s with
  | EmptyString => EmptyString
  | String c s' => String (lower_char c) (lower s')
  end.

(** Some character of the string is an ASCII capital. *)
Fixpoint has_upper (s : string) : bool :=
  match s with
  | EmptyString => false
  | String c s' => is_upper c || has_upper s'
  end.

(** [s.startswith(p)] *)
Definition startswith (s p : string) : bool := String.prefix p s.

(** [s.endswith(suf)] *)
Fixpoint endswith (s suf : string) : bool :=
  if String.eqb s suf then true
  else match s with
       | EmptyString => false
       | String _ s' => endswith s' suf
       end.

(** [s[1:]] *)
Definition drop_first (s : string) : string :=
  match s with
  | EmptyString => EmptyString
  | String _ s' => s'
  end.

(** [s[:-1]] *)
Fixpoint drop_last (s : string) : string :=
  match s with
  | EmptyString => EmptyString
  | String c s' =>
      match s' with
      | EmptyString => EmptyString
      | String _ _ => String c (drop_last s')
      end
  end.

(** [s[:n]] *)
Fixpoint take_str (n : nat) (s : string) : string :=
  match n, s with
  | S n', String c s' => String c (take_str n' s')
  | _, _ => EmptyString
  end.

(** [s[n:]] *)
Fixpoint drop_str (n : nat) (s : string) : string :=
  match n, s with
  | S n', String _ s' => drop_str n' s'
  | _, _ => s
  end.

Fixpoint has_char (c : ascii) (s : string) : bool :=
  match s with
  | EmptyString => false
  | String a s' => Ascii.eqb a c || has_char c s'
  end.

(** [s.rstrip(chars)], the stripped characters given by a predicate. *)
Fixpoint rstrip (f : ascii -> bool) (s : string) : string :=
  match s with
  | EmptyString => EmptyString
  | String a s' =>
      let r := rstrip f s' in
      if String.eqb r EmptyString && f a then EmptyString else String a r
  end.

(** [s.lstrip(chars)] *)
Fixpoint lstrip (f : ascii -> bool) (s : string) : string :=
  match s with
  | EmptyString => EmptyString
  | String a s' => if f a then lstrip f s' else s
  end.

(** [s[s.rfind(c):]] when [c] occurs in [s]. *)
Fixpoint rfind_from (c : ascii) (s : string) : option string :=
  match s with
  | EmptyString => None
  | String a s' =>
      match rfind_from c s' with
      | Some r => Some r
      | None => if Ascii.eqb a c then Some s else None
      end
  end.

(** [PurePath.suffix] of a final path component: the part from the last
    dot on, unless that dot is the first or the last character. *)
Definition suffix (name : string) : string :=
  match name with
  | EmptyString => EmptyString
  | String _ rest =>
      match rfind_from "." rest with
      | Some r => if (String.length r =? 1)%nat then EmptyString else r
      | None => EmptyString
      end
  end.

(** [os.path.join(a, b)] of [posixpath]. *)
Definition os_path_join (a b : string) : string :=
  if startswith b "/" then b
  else if String.eqb a "" || endswith a "/" then a +:+ b
  else a +:+ "/" +:+ b.

(** [p[:p.rfind('/') + 1]] *)
Fixpoint dirname_head (p : string) : string :=
  match p with
  | EmptyString => EmptyString
  | String a p' => if has_char "/" p then String a (dirname_head p') else EmptyString
  end.

(** [os.path.dirname(p)] of [posixpath]. *)
Definition os_path_dirname (p : string) : string :=
  let head := dirname_head p in
  let stripped := rstrip (Ascii.eqb "/") head in
  if String.eqb stripped "" then head else stripped.

(** [sep.join(l)] *)
Fixpoint str_join (sep : string) (l : list string) : string :=
  match l with
  | [] => ""
  | [x] => x
  | x :: l' => x +:+ sep +:+ str_join sep l'
  end.

(** ** Ignore rules and code classification *)

Definition default_ignore : gset string :=
  list_to_set
    [ "__pycache__"; ".git"; ".gitignore"; ".DS_Store"; "node_modules";
      ".env"; ".venv"; "venv"; "env"; ".pytest_cache"; ".mypy_cache";
      "dist"; "build"; ".idea"; ".vscode"; "*.pyc"; "*.pyo"; "*.pyd";
      ".coverage"; "htmlcov"; ".tox"; ".cache"; "eggs"; "*.egg-info";
      "logs"; "*.log"; ".npm"; ".yarn"; "package-lock.json"; "yarn.lock" ].

Definition code_extensions : gset string :=
  list_to_set
    [ ".py"; ".js"; ".ts"; ".tsx"; ".jsx"; ".java"; ".cpp"; ".c"; ".h";
      ".cs"; ".php"; ".rb"; ".go"; ".rs"; ".swift"; ".kt"; ".scala";
      ".html"; ".css"; ".scss"; ".sass"; ".less"; ".vue"; ".svelte";
      ".sql"; ".sh"; ".bat"; ".ps1"; ".yml"; ".yaml"; ".json"; ".xml";
      ".md"; ".rst"; ".txt"; ".dockerfile"; ".config"; ".conf" ].

(** One pass of the loop body of [should_ignore] for one pattern; [name]
    is already lower-cased, the pattern is used as it is. *)
Definition pattern_matches (name pattern : string) : bool :=
  (startswith pattern "*" && endswith name (drop_first pattern))
  || (endswith pattern "*" && startswith name (drop_last pattern)).

(** [should_ignore(path, ignore_patterns)]; the argument [path_name] is
    [path.name]. *)
Definition should_ignore (path_name : string) (ignore_patterns : gset string) : bool :=
  let name := lower path_name in
  if bool_decide (name ∈ ignore_patterns) then true
  else existsb (pattern_matches name) (elements ignore_patterns).

(** ** File records *)

(** What the filesystem answers for one file: [stat()] gives a size or
    raises, and reading the text (decoded with [errors="ignore"]) gives
    the content or raises. *)
Inductive stat_result :=
| Stat (st_size : Z)
| StatError (msg : string).

Record file_data := mk_file_data {
  f_stat : stat_result;
  f_read : option string
}.

Record file_record := mk_file_record {
  fi_name : string;
  fi_path : string;
  fi_size : Z;
  fi_extension : string;
  fi_is_code : bool;
  fi_content_preview : option string;
  fi_line_count : option nat
}.

(** The dictionary returned by [get_file_info]: the full record, or the
    three-key error dictionary of the outer handler. *)
Inductive file_info :=
| FileInfo (r : file_record)
| FileInfoError (name path error : string).

Definition is_line_boundary (c : ascii) : bool :=
  let n := N_of_ascii c in
  ((10 <=? n)%N && (n <=? 13)%N) || ((28 <=? n)%N && (n <=? 30)%N).

(** [len(content.splitlines())]; a carriage return directly followed by
    a line feed is one boundary. *)
Fixpoint count_lines (pending : bool) (s : string) : nat :=
  match s with
  | EmptyString => if pending then 1%nat else 0%nat
  | String c s' =>
      if is_line_boundary c then
        match s' with
        | String c' _ =>
            if Ascii.eqb c "013" && Ascii.eqb c' "010"
            then count_lines true s'
            else S (count_lines false s')
        | EmptyString => 1%nat
        end
      else count_lines true s'
  end.

Definition content_preview_of (content : string) : string :=
  if (500 <? String.length content)%nat
  then take_str 500 content +:+ "..."
  else content.

(** [get_file_info(file_path)]; [file_path] is [str(file_path)] and
    [name] is [file_path.name]. *)
Definition get_file_info (file_path name : string) (f : file_data) : file_info :=
  match f_stat f with
  | StatError e => FileInfoError name file_path e
  | Stat st_size =>
      let extension := lower (suffix name) in
      let is_code := bool_decide (lower (suffix name) ∈ code_extensions) in
      let unread :=
        mk_file_record name file_path st_size extension is_code None None in
      if is_code && (st_size <? 50000)%Z then
        match f_read f with
        | Some content =>
            FileInfo (mk_file_record name file_path st_size extension is_code
                        (Some (content_preview_of content))
                        (Some (count_lines false content)))
        | None => FileInfo unread
        end
      else FileInfo unread
  end.

(** [file_info.get("size", 0)] *)
Definition get_size (fi : file_info) : Z :=
  match fi with FileInfo r => fi_size r | FileInfoError _ _ _ => 0%Z end.

(** [file_info.get("extension", "")] *)
Definition get_extension (fi : file_info) : string :=
  match fi with FileInfo r => fi_extension r | FileInfoError _ _ _ => "" end.

(** [file_info.get("is_code")] *)
Definition get_is_code (fi : file_info) : option bool :=
  match fi with FileInfo r => Some (fi_is_code r) | FileInfoError _ _ _ => None end.


(** [file_info["name"]] *)
Definition get_name (fi : file_info) : string :=
  match fi with FileInfo r => fi_name r | FileInfoError n _ _ => n end.

(** ** Exceptions and results *)

(** A raised exception: its class and its message. *)
Record exn := mk_exn {
  exn_class : string;
  exn_message : string
}.

Inductive result (A : Type) :=
| Ok (a : A)
| Raise (e : exn).

Arguments Ok {A} a.
Arguments Raise {A} e.

Definition FileNotFoundError (msg : string) : exn := mk_exn "FileNotFoundError" msg.
Definition ValueError (msg : string) : exn := mk_exn "ValueError" msg.
Definition RecursionError : exn :=
  mk_exn "RecursionError" "maximum recursion depth exceeded".

(** ** Insertion-ordered dictionaries with string keys *)

Fixpoint dict_get {V : Type} (d : list (string * V)) (k : string) : option V :=
  match d with
  | [] => None
  | (k', v) :: d' => if String.eqb k' k then Some v else dict_get d' k
  end.

(** [d[k] = v]: an existing key keeps its position. *)
Fixpoint dict_set {V : Type} (d : list (string * V)) (k : string) (v : V)
  : list (string * V) :=
  match d with
  | [] => [(k, v)]
  | (k', v') :: d' =>
      if String.eqb k' k then (k', v) :: d' else (k', v') :: dict_set d' k v
  end.

(** ** The filesystem seen by the scanner *)

(** A directory entry. The list of a directory is what [iterdir()]
    yields, in the order the operating system gives it; [None] is a
    directory whose listing raises [PermissionError]. *)
Inductive fsnode :=
| FsFile (name : string) (data : file_data)
| FsDir (name : string) (listing : option (list fsnode)).

Definition node_name (n : fsnode) : string :=
  match n with
  | FsFile name _ => name
  | FsDir name _ => name
  end.

(** Order of sibling [Path] objects: the order of their names. *)
Definition name_le (a b : fsnode) : Prop := String.le (node_name a) (node_name b).

Global Instance name_le_dec : RelDecision name_le.
Proof. intros a b. unfold name_le. apply _. Defined.

(** [sorted(current_path.iterdir())] *)
Definition sorted_listing (l : list fsnode) : list fsnode := merge_sort name_le l.

(** What the root path resolves to. *)
Inductive root_kind :=
| RootMissing
| RootNotDirectory
| RootDirectory (listing : option (list fsnode)).

Record resolved_root := mk_resolved_root {
  root_name : string;
  root_str : string;
  root_node : root_kind
}.

(** ** The project model *)

Inductive item :=
| ItemDirectory (name path : string) (items : list item)
| ItemFile (name path : string) (size : Z) (extension : string).

Definition item_name (it : item) : string :=
  match it with
  | ItemDirectory name _ _ => name
  | ItemFile name _ _ _ => name
  end.

Record statistics := mk_statistics {
  total_files : Z;
  total_directories : Z;
  code_files : Z;
  total_size : Z;
  file_types : list (string * Z);
  languages : list string
}.

(** An element of [project_info["files"]]: the file dictionary with its
    [relative_path] key. *)
Record scanned_file := mk_scanned_file {
  sf_info : file_info;
  relative_path : string
}.

Record project_info := mk_project_info {
  project_name : string;
  root_path : string;
  structure : list item;
  files : list scanned_file;
  directories : list string;
  stats : statistics
}.

Definition lang_map : list (string * string) :=
  [ (".py", "Python"); (".js", "JavaScript"); (".ts", "TypeScript");
    (".tsx", "TypeScript"); (".jsx", "JavaScript"); (".java", "Java");
    (".cpp", "C++"); (".c", "C"); (".cs", "C#"); (".php", "PHP");
    (".rb", "Ruby"); (".go", "Go"); (".rs", "Rust"); (".swift", "Swift");
    (".kt", "Kotlin"); (".scala", "Scala"); (".html", "HTML");
    (".css", "CSS"); (".scss", "SCSS"); (".sql", "SQL") ].

(** ** The scanner *)

(** The directory branch before the recursive call: count the directory
    and record its relative path. *)
Definition record_directory (item_relative : string) (pi : project_info)
  : project_info :=
  let st := stats pi in
  mk_project_info (project_name pi) (root_path pi) (structure pi) (files pi)
    (directories pi ++ [item_relative])
    (mk_statistics (total_files st) (total_directories st + 1) (code_files st)
       (total_size st) (file_types st) (languages st)).

(** [project_info["statistics"]["total_files"] += 1] *)
Definition count_file (pi : project_info) : project_info :=
  let st := stats pi in
  mk_project_info (project_name pi) (root_path pi) (structure pi) (files pi)
    (directories pi)
    (mk_statistics (total_files st + 1) (total_directories st) (code_files st)
       (total_size st) (file_types st) (languages st)).

(** The statistics updates of the file branch after the ceiling test.
    The [languages] set is kept as the sequence of its [add] calls. *)
Definition record_file (fi : file_info) (item_relative : string)
    (pi : project_info) : project_info :=
  let st := stats pi in
  let ext := get_extension fi in
  let is_code := match get_is_code fi with Some true => true | _ => false end in
  mk_project_info (project_name pi) (root_path pi) (structure pi)
    (files pi ++ [mk_scanned_file fi item_relative])
    (directories pi)
    (mk_statistics (total_files st) (total_directories st)
       (if is_code then code_files st + 1 else code_files st)
       (total_size st + get_size fi)
       (if String.eqb ext "" then file_types st
        else dict_set (file_types st) ext
               (default 0 (dict_get (file_types st) ext) + 1)%Z)
       (if is_code then
          match dict_get lang_map ext with
          | Some lang => languages st ++ [lang]
          | None => languages st
          end
        else languages st)).

Definition too_many_files : exn :=
  ValueError "Project contains more than 500 files. Aborting analysis.".

(** The file branch of the loop body. *)
Definition scan_file (current_path item_relative name : string)
    (data : file_data) (pi : project_info) : result (item * project_info) :=
  let pi1 := count_file pi in
  if (500 <? total_files (stats pi1))%Z then Raise too_many_files
  else
    let fi := get_file_info (os_path_join current_path name) name data in
    Ok (ItemFile name item_relative (get_size fi) (get_extension fi),
        record_file fi item_relative pi1).

(** The [for] loop of [scan_directory] over the sorted entries; [recurse]
    is the recursive call of [scan_directory]. *)
Fixpoint scan_loop (ignore_patterns : gset string)
    (recurse : option (list fsnode) -> string -> string -> project_info ->
               result (list item * project_info))
    (current_path relative_path : string)
    (todo : list fsnode) (items : list item) (pi : project_info)
  : result (list item * project_info) :=
  match todo with
  | [] => Ok (items, pi)
  | it :: todo' =>
      if should_ignore (node_name it) ignore_patterns
      then scan_loop ignore_patterns recurse current_path relative_path todo' items pi
      else
        let item_relative :=
          if String.eqb relative_path "" then node_name it
          else os_path_join relative_path (node_name it) in
        match it with
        | FsDir name sub =>
            match recurse sub (os_path_join current_path name) item_relative
                    (record_directory item_relative pi) with
            | Raise e => Raise e
            | Ok (sub_items, pi') =>
                scan_loop ignore_patterns recurse current_path relative_path todo'
                  (items ++ [ItemDirectory name item_relative sub_items]) pi'
            end
        | FsFile name data =>
            match scan_file current_path item_relative name data pi with
            | Raise e => Raise e
            | Ok (it', pi') =>
                scan_loop ignore_patterns recurse current_path relative_path todo'
                  (items ++ [it']) pi'
            end
        end
  end.

(** [scan_directory(current_path, relative_path)]. The first argument
    bounds the depth of the recursion, as the interpreter's recursion
    limit does; a listing that raises [PermissionError] gives the empty
    list of items. *)
Fixpoint scan_directory (ignore_patterns : gset string) (depth : nat)
    (listing : option (list fsnode)) (current_path relative_path : string)
    (pi : project_info) : result (list item * project_info) :=
  match depth with
  | O => Raise RecursionError
  | S depth' =>
      match listing with
      | None => Ok ([], pi)
      | Some entries =>
          scan_loop ignore_patterns (scan_directory ignore_patterns depth')
            current_path relative_path (sorted_listing entries) [] pi
      end
  end.

(** What a run of the scanner from state [pi] over [k] kept files may
    end in: a result that counts the [k] files, staying within the
    ceiling if there are any; the recursion limit; or the ceiling error,
    and then only if the count passes 500. *)
Definition scan_outcome (r : result (list item * project_info))
    (pi : project_info) (k : nat) : Prop :=
  match r with
  | Ok (_, pi') =>
      total_files (stats pi') = (total_files (stats pi) + Z.of_nat k)%Z
      /\ (0 < k -> (total_files (stats pi') <= 500)%Z)
  | Raise e =>
      e = RecursionError
      \/ (e = too_many_files /\ (500 < total_files (stats pi) + Z.of_nat k)%Z)
  end.

Definition empty_project (name root : string) : project_info :=
  mk_project_info name root [] [] [] (mk_statistics 0 0 0 0 [] []).

(** [analyze_directory(root_path, ignore_folders)]. [set_order] gives the
    order in which [list(...)] enumerates the [languages] set built by
    the given sequence of [add] calls; [path_arg] is the argument
    [root_path] and [root] is what [Path(root_path).resolve()] denotes. *)
Definition analyze_directory (set_order : list string -> list string)
    (depth : nat) (path_arg : string) (root : resolved_root)
    (ignore_folders : list string) : result project_info :=
  match root_node root with
  | RootDirectory listing =>
      let ignore_patterns := default_ignore ∪ list_to_set ignore_folders in
      match scan_directory ignore_patterns depth listing (root_str root) ""
              (empty_project (root_name root) (root_str root)) with
      | Raise e => Raise e
      | Ok (items, pi) =>
          let st := stats pi in
          Ok (mk_project_info (project_name pi) (root_path pi) items (files pi)
                (directories pi)
                (mk_statistics (total_files st) (total_directories st)
                   (code_files st) (total_size st) (file_types st)
                   (set_order (languages st))))
      end
  | _ =>
      Raise (FileNotFoundError
               ("Project path does not exist or is not a directory: " +:+ path_arg))
  end.

(** ** Measures of a tree, used to state what the scanner does *)

(** The files a scan meets below a node: those under directories that
    are neither ignored nor unreadable. *)
Fixpoint kept_files (ignore_patterns : gset string) (n : fsnode) : nat :=
  match n with
  | FsFile _ _ => 1
  | FsDir _ None => 0
  | FsDir _ (Some l) =>
      sum_list_with
        (fun x => if should_ignore (node_name x) ignore_patterns then 0
                  else kept_files ignore_patterns x) l
  end.

Definition kept_in (ignore_patterns : gset string) (l : list fsnode) : nat :=
  sum_list_with
    (fun x => if should_ignore (node_name x) ignore_patterns then 0
              else kept_files ignore_patterns x) l.

Definition kept_listing (ignore_patterns : gset string)
    (listing : option (list fsnode)) : nat :=
  match listing with
  | None => 0
  | Some l => kept_in ignore_patterns l
  end.



(** ** Two enumerations of one filesystem state

    [iterdir()] yields the entries of a directory in arbitrary order, so
    one state of the filesystem is seen as any of the trees that differ
    by the order of the listings, at every level. *)





(** ** The tree renderer *)

Definition branch_connector : string := "├─ ".
Definition terminal_connector : string := "└─ ".
Definition bar_extension : string := "│  ".
Definition blank_extension : string := "   ".

(** The [for] loop of [generate_tree_view] over [structure]; [render] is
    the loop body. [is_last_item] is [i == len(structure) - 1]. *)
Definition tree_loop (render : item -> string -> bool -> string)
    (prefix : string) : list item -> string :=
  fix loop (structure : list item) : string :=
    match structure with
    | [] => ""
    | it :: rest =>
        render it prefix (match rest with [] => true | _ :: _ => false end)
        +:+ loop rest
    end.

(** The loop body of [generate_tree_view] for one item. *)
Fixpoint render_item (it : item) (prefix : string) (is_last_item : bool)
  : string :=
  let current_prefix :=
    if is_last_item then terminal_connector else branch_connector in
  (prefix +:+ current_prefix +:+ item_name it +:+ newline)
  +:+ match it with
      | ItemDirectory _ _ sub_items =>
          let extension :=
            if is_last_item then blank_extension else bar_extension in
          tree_loop render_item (prefix +:+ extension) sub_items
      | ItemFile _ _ _ _ => ""
      end.

(** [generate_tree_view(structure, prefix, is_last)] *)
Definition generate_tree_view (structure : list item) (prefix : string)
    (is_last : bool) : string :=
  tree_loop render_item prefix structure.

(** ** Reading a rendered tree back

    The nesting of a structural tree, and the reader of the rendered text
    by connector shape that the round-trip property speaks of. The reader
    is not part of [main.py]: a line is a sequence of continuation units
    followed by a connector and the name, and a line one unit deeper than
    the previous entry is a child of it. *)

Inductive shape :=
| Node (label : string) (children : list shape).

Fixpoint shape_of (it : item) : shape :=
  match it with
  | ItemDirectory name _ sub_items => Node name (map shape_of sub_items)
  | ItemFile name _ _ _ => Node name []
  end.

Fixpoint split_lines (s : string) : list string :=
  match s with
  | EmptyString => []
  | String c s' =>
      if Ascii.eqb c "010" then EmptyString :: split_lines s'
      else match split_lines s' with
           | [] => [String c EmptyString]
           | l :: ls => String c l :: ls
           end
  end.

(** Depth and name of one line. *)
Fixpoint parse_line (fuel : nat) (line : string) : option (nat * string) :=
  match fuel with
  | O => None
  | S fuel' =>
      if startswith line branch_connector
      then Some (0%nat, drop_str (String.length branch_connector) line)
      else if startswith line terminal_connector
      then Some (0%nat, drop_str (String.length terminal_connector) line)
      else if startswith line bar_extension
      then match parse_line fuel' (drop_str (String.length bar_extension) line) with
           | Some (d, n) => Some (S d, n)
           | None => None
           end
      else if startswith line blank_extension
      then match parse_line fuel' (drop_str (String.length blank_extension) line) with
           | Some (d, n) => Some (S d, n)
           | None => None
           end
      else None
  end.

Fixpoint parse_lines (lines : list string) : option (list (nat * string)) :=
  match lines with
  | [] => Some []
  | l :: ls =>
      match parse_line (S (String.length l)) l, parse_lines ls with
      | Some x, Some xs => Some (x :: xs)
      | _, _ => None
      end
  end.

(** The entries at depth [d] at the head of the lines, each with the
    deeper lines that follow it as its children; the lines left over. *)
Fixpoint build_forest (fuel d : nat) (lines : list (nat * string))
  : list shape * list (nat * string) :=
  match fuel with
  | O => ([], lines)
  | S fuel' =>
      match lines with
      | [] => ([], [])
      | (d', name) :: rest =>
          if (d' =? d)%nat then
            let (children, rest1) := build_forest fuel' (S d) rest in
            let (siblings, rest2) := build_forest fuel' d rest1 in
            (Node name children :: siblings, rest2)
          else ([], lines)
      end
  end.

Definition parse_tree (text : string) : option (list shape) :=
  match parse_lines (split_lines text) with
  | None => None
  | Some lines =>
      match build_forest (S (length lines)) 0 lines with
      | (forest, []) => Some forest
      | (_, _ :: _) => None
      end
  end.

(** No name in the tree contains a line feed. *)
Fixpoint line_names (it : item) : bool :=
  negb (has_char "010" (item_name it))
  && match it with
     | ItemDirectory _ _ sub_items => forallb line_names sub_items
     | ItemFile _ _ _ _ => true
     end.

(** The entries of a tree in the order of the rendered lines, each with
    its depth. *)
Fixpoint item_rows (d : nat) (it : item) : list (nat * string) :=
  (d, item_name it)
  :: match it with
     | ItemDirectory _ _ sub_items => flat_map (item_rows (S d)) sub_items
     | ItemFile _ _ _ _ => []
     end.

(** A prefix made of [d] continuation units. *)
Inductive depth_prefix : nat -> string -> Prop :=
| depth_prefix_O : depth_prefix 0 ""
| depth_prefix_bar d p : depth_prefix d p -> depth_prefix (S d) (bar_extension +:+ p)
| depth_prefix_blank d p : depth_prefix d p -> depth_prefix (S d) (blank_extension +:+ p).

(** What stops the reading of the entries at depth [d]: the end of the
    lines or a shallower line. *)
Definition stops (d : nat) (rows : list (nat * string)) : Prop :=
  match rows with
  | [] => True
  | (d', _) :: _ => d' < d
  end.

(** ** Values produced by [json.loads] *)

Inductive pyval :=
| PNone
| PBool (b : bool)
| PInt (z : Z)
| PFloat (f : float)
| PStr (s : string)
| PList (l : list pyval)
| PDict (d : list (string * pyval)).

(** Truth value of a Python object, as tested by [not dir_description]. *)
Definition truthy (v : pyval) : bool :=
  match v with
  | PNone => false
  | PBool b => b
  | PInt z => negb (z =? 0)%Z
  | PFloat f => negb (PrimFloat.eqb f 0%float)
  | PStr s => negb (String.eqb s "")
  | PList l => match l with [] => false | _ :: _ => true end
  | PDict d => match d with [] => false | _ :: _ => true end
  end.

(** ** Extraction of the fenced block *)

(** The characters matched by [\s] that fit in one byte. *)
Definition is_space (c : ascii) : bool :=
  let n := N_of_ascii c in
  ((9 <=? n)%N && (n <=? 13)%N) || ((28 <=? n)%N && (n <=? 32)%N).

(** The text after the first occurrence of [sub] in [s]. *)
Fixpoint find_after (sub s : string) : option string :=
  if startswith s sub then Some (drop_str (String.length sub) s)
  else match s with
       | EmptyString => None
       | String _ s' => find_after sub s'
       end.

(** The text before the first occurrence of [sub] in [s]. *)
Fixpoint find_before (sub s : string) : option string :=
  if startswith s sub then Some EmptyString
  else match s with
       | EmptyString => None
       | String c s' =>
           match find_before sub s' with
           | Some r => Some (String c r)
           | None => None
           end
       end.

Definition json_fence : string := "```json".
Definition fence : string := "```".

(** [extract_json_from_markdown(response)]: group 1 of the first match of
    the pattern: the fence with its language marker, white space, the
    shortest text that is followed by white space and a closing fence. *)
Definition extract_json_from_markdown (response : string) : option string :=
  match find_after json_fence response with
  | None => None
  | Some rest =>
      match find_before fence (lstrip is_space rest) with
      | None => None
      | Some body => Some (rstrip is_space body)
      end
  end.

(** ** The description pipeline *)

(** Answer of the chat chain to one request: the text, or a transport or
    timeout error (an exception that is not a [JSONDecodeError]). *)
Inductive llm_result :=
| LlmText (response : string)
| LlmError.

(** Answer of [json.loads]: the value, [JSONDecodeError], or another
    exception. *)
Inductive loads_result :=
| Loaded (v : pyval)
| LoadsDecodeError
| LoadsOtherError.

(** The collaborators: the chain invoked with the variables [directory]
    and [file_list], and [json.loads]. *)
Record collaborators := mk_collaborators {
  invoke : string -> string -> llm_result;
  json_loads : string -> loads_result
}.

Record descriptions := mk_descriptions {
  desc_directories : gmap string pyval;
  desc_files : gmap string pyval
}.

Definition missing_json : string := "Description unavailable due to missing JSON".
Definition json_parsing_error : string :=
  "Description unavailable due to JSON parsing error".
Definition unexpected_error : string :=
  "Description unavailable due to unexpected error".

(** [for filename in batch: file_descriptions[join(dir_path, filename)] = v] *)
Definition set_batch (dir_path : string) (batch : list string) (v : pyval)
    (file_descriptions : gmap string pyval) : gmap string pyval :=
  foldl (fun fd filename => <[os_path_join dir_path filename := v]> fd)
    file_descriptions batch.

(** [for filename, desc in files.items(): file_descriptions[join(dir_path, filename)] = desc] *)
Definition merge_files (dir_path : string) (files_items : list (string * pyval))
    (file_descriptions : gmap string pyval) : gmap string pyval :=
  foldl (fun fd kv => <[os_path_join dir_path kv.1 := kv.2]> fd)
    file_descriptions files_items.

(** The variable [file_list] of the request:
    [", ".join(batch) if batch else "No files"]. *)
Definition file_list_arg (batch : list string) : string :=
  match batch with
  | [] => "No files"
  | _ :: _ => str_join ", " batch
  end.

(** How the [try] block of one batch ends. *)
Inductive try_outcome :=
| Done (dir_description : pyval) (file_descriptions : gmap string pyval)
| RaisedJSONDecodeError
| RaisedOther.

(** The [try] block for one batch. A value that is not a dictionary has
    no [get] and no [items], so using it raises [AttributeError]; the
    handlers then overwrite [dir_description], and [file_descriptions]
    has not been touched at that point. *)
Definition try_batch (c : collaborators) (dir_path : string)
    (batch : list string) (dir_description : pyval)
    (file_descriptions : gmap string pyval) : try_outcome :=
  match invoke c dir_path (file_list_arg batch) with
  | LlmError => RaisedOther
  | LlmText response =>
      let missing :=
        Done (PStr missing_json)
          (set_batch dir_path batch (PStr missing_json) file_descriptions) in
      match extract_json_from_markdown response with
      | None => missing
      | Some response_content =>
          if String.eqb response_content "" then missing
          else
            match json_loads c response_content with
            | LoadsDecodeError => RaisedJSONDecodeError
            | LoadsOtherError => RaisedOther
            | Loaded (PDict dir_data) =>
                let dir_description' :=
                  if truthy dir_description then dir_description
                  else default (PStr "Description unavailable")
                         (dict_get dir_data "directory_description") in
                match default (PDict []) (dict_get dir_data "files") with
                | PDict files_items =>
                    Done dir_description'
                      (merge_files dir_path files_items file_descriptions)
                | _ => RaisedOther
                end
            | Loaded _ => RaisedOther
            end
      end
  end.

(** One iteration of the loop over [file_batches]: the [try] block and
    its two handlers. *)
Definition process_batch (c : collaborators) (dir_path : string)
    (st : pyval * gmap string pyval) (batch : list string)
  : pyval * gmap string pyval :=
  match try_batch c dir_path batch st.1 st.2 with
  | Done dir_description file_descriptions =>
      (dir_description, file_descriptions)
  | RaisedJSONDecodeError =>
      (PStr json_parsing_error,
       set_batch dir_path batch (PStr json_parsing_error) st.2)
  | RaisedOther =>
      (PStr unexpected_error,
       set_batch dir_path batch (PStr unexpected_error) st.2)
  end.

(** [range(0, n, step)] *)
Definition py_range_step (n step : nat) : list nat :=
  map (fun k => (k * step)%nat) (seq 0 ((n + step - 1) / step)).

Definition batch_size : nat := 10.

(** [[file_list[i : i + batch_size] for i in range(0, len(file_list), batch_size)]] *)
Definition file_batches (file_list : list string) : list (list string) :=
  map (fun i => take batch_size (drop i file_list))
    (py_range_step (length file_list) batch_size).

(** The first loop of [generate_descriptions]: [files_by_dir]. *)
Definition dir_path_of (f : scanned_file) : string :=
  let d := os_path_dirname (relative_path f) in
  if String.eqb d "" then "root" else d.

Definition group_files (fs : list scanned_file)
  : list (string * list scanned_file) :=
  foldl (fun acc f =>
           dict_set acc (dir_path_of f)
             (default [] (dict_get acc (dir_path_of f)) ++ [f]))
    [] fs.

(** The directories visited by the second loop, in order. *)
Definition dir_order (files_by_dir : list (string * list scanned_file))
    (dirs : list string) : list string :=
  map fst files_by_dir
  ++ filter (fun d => dict_get files_by_dir d = None) dirs.

(** The names of the files of a directory: [file_list]. *)
Definition file_list_of (files_by_dir : list (string * list scanned_file))
    (dir_path : string) : list string :=
  map (fun f => get_name (sf_info f)) (default [] (dict_get files_by_dir dir_path)).

(** The loop over the batches of one directory, from an empty
    description and no file descriptions. *)
Definition describe_batches (c : collaborators) (dir_path : string)
    (file_list : list string) : pyval * gmap string pyval :=
  foldl (process_batch c dir_path) (PStr "", ∅) (file_batches file_list).

(** The body of the loop over directories. *)
Definition describe_directory (c : collaborators)
    (files_by_dir : list (string * list scanned_file))
    (acc : descriptions) (dir_path : string) : descriptions :=
  let r := describe_batches c dir_path (file_list_of files_by_dir dir_path) in
  mk_descriptions (<[dir_path := r.1]> (desc_directories acc))
    (r.2 ∪ desc_files acc).

(** [generate_descriptions(project_info)] *)
Definition generate_descriptions (c : collaborators) (pi : project_info)
  : descriptions :=
  let files_by_dir := group_files (files pi) in
  foldl (describe_directory c files_by_dir) (mk_descriptions ∅ ∅)
    (dir_order files_by_dir (directories pi)).

(** ** The ways a batch can go, used to state what the pipeline does *)




(** A JSON object of the expected shape, with the given directory
    description and file descriptions. *)
Definition str_items (fs : list (string * string)) : list (string * pyval) :=
  map (fun kv => (kv.1, PStr kv.2)) fs.




(** ** Measures of a project model, used to state the scanner's invariants *)

(** [item_relative] of the loop body of [scan_directory]. *)
Definition child_relative (rp name : string) : string :=
  if String.eqb rp "" then name else os_path_join rp name.

(** The paths of the file nodes of a tree, in preorder. *)
Fixpoint file_paths (it : item) : list string :=
  match it with
  | ItemDirectory _ _ sub_items => flat_map file_paths sub_items
  | ItemFile _ path _ _ => [path]
  end.

(** The paths of the directory nodes of a tree, in preorder. *)
Fixpoint dir_paths (it : item) : list string :=
  match it with
  | ItemDirectory _ path sub_items => path :: flat_map dir_paths sub_items
  | ItemFile _ _ _ _ => []
  end.

(** The number of nodes of a tree. *)
Fixpoint node_count (it : item) : nat :=
  match it with
  | ItemDirectory _ _ sub_items => S (sum_list_with node_count sub_items)
  | ItemFile _ _ _ _ => 1
  end.

(** [file_info.get("is_code")] is true. *)
Definition is_code_file (f : scanned_file) : bool :=
  match get_is_code (sf_info f) with
  | Some true => true
  | _ => false
  end.

(** The language a file adds to the [languages] set, if any. *)
Definition file_language (f : scanned_file) : option string :=
  if is_code_file f then dict_get lang_map (get_extension (sf_info f)) else None.

(** What one file does to [file_types]. *)
Definition bump_type (ft : list (string * Z)) (ext : string) : list (string * Z) :=
  if String.eqb ext "" then ft
  else dict_set ft ext (default 0 (dict_get ft ext) + 1)%Z.

Definition sum_sizes (fs : list scanned_file) : Z :=
  foldr (fun f acc => (get_size (sf_info f) + acc)%Z) 0%Z fs.

(** The statistics are those of the flat lists. *)
Definition counted (pi : project_info) : Prop :=
  total_files (stats pi) = Z.of_nat (length (files pi))
  /\ total_directories (stats pi) = Z.of_nat (length (directories pi))
  /\ code_files (stats pi) = Z.of_nat (length (filter (fun f => is_code_file f = true) (files pi)))
  /\ total_size (stats pi) = sum_sizes (files pi)
  /\ file_types (stats pi)
     = foldl bump_type [] (map (fun f => get_extension (sf_info f)) (files pi))
  /\ languages (stats pi) = omap file_language (files pi).

(** The number of files with a given extension. *)
Definition count_extension (ext : string) (fs : list scanned_file) : nat :=
  length (filter (fun f => get_extension (sf_info f) = ext) fs).

(** No name below a filesystem node contains a line feed. *)
Fixpoint fs_line_names (n : fsnode) : bool :=
  negb (has_char "010" (node_name n))
  && match n with
     | FsFile _ _ => true
     | FsDir _ None => true
     | FsDir _ (Some l) => forallb fs_line_names l
     end.

Definition listing_line_names (listing : option (list fsnode)) : bool :=
  match listing with
  | None => true
  | Some l => forallb fs_line_names l
  end.

(** A name as a directory listing gives it: not empty and without a
    slash; and a tree in which every name is such. *)
Definition plain_name (n : string) : bool :=
  negb (String.eqb n "") && negb (has_char "/" n).

Fixpoint fs_plain_names (n : fsnode) : bool :=
  plain_name (node_name n)
  && match n with
     | FsFile _ _ => true
     | FsDir _ None => true
     | FsDir _ (Some l) => forallb fs_plain_names l
     end.

Definition listing_plain_names (listing : option (list fsnode)) : bool :=
  match listing with
  | None => true
  | Some l => forallb fs_plain_names l
  end.

(** A relative path is empty (the root) or does not end with a slash. *)
Definition good_relative (rp : string) : Prop :=
  rp = "" \/ (rp <> "" /\ endswith rp "/" = false).


(** The children of every directory of a tree are in the order of their
    names, and no name in the tree is ignored by the rules. *)
Inductive tidy_item (ignore_patterns : gset string) : item -> Prop :=
| tidy_file name path size extension :
    tidy_item ignore_patterns (ItemFile name path size extension)
| tidy_directory name path sub_items :
    StronglySorted String.le (map item_name sub_items) ->
    Forall (fun n => should_ignore n ignore_patterns = false) (map item_name sub_items) ->
    Forall (tidy_item ignore_patterns) sub_items ->
    tidy_item ignore_patterns (ItemDirectory name path sub_items).

(** ** Example inputs *)

Definition small_file : file_data := mk_file_data (Stat 12) (Some "x = 1").


Definition root_of (listing : option (list fsnode)) : resolved_root :=
  mk_resolved_root "proj" "/home/proj" (RootDirectory listing).

(** One directory state enumerated in two orders. *)
Definition listing_a : list fsnode :=
  [ FsFile "b.py" small_file;
    FsDir "src" (Some [FsFile "z.js" small_file; FsFile "a.py" small_file]);
    FsDir "locked" None ].


(** A small structural tree, and two trees with one rendering: a file
    whose name holds a line feed, and a directory with one file. *)
Definition sample_structure : list item :=
  [ ItemDirectory "src" "src"
      [ ItemFile "a.py" "src/a.py" 12 ".py";
        ItemDirectory "lib" "src/lib" [ItemFile "z.js" "src/lib/z.js" 12 ".js"] ];
    ItemDirectory "empty" "empty" [];
    ItemFile "b.py" "b.py" 12 ".py" ].

Definition broken_name : string := "d" +:+ newline +:+ "   └─ x".

Definition one_file : list item := [ItemFile broken_name broken_name 0 ""].

Definition dir_with_file : list item :=
  [ItemDirectory "d" "d" [ItemFile "x" "d/x" 0 ""]].


Definition first_batch : list string :=
  [ "f0.py"; "f1.py"; "f10.py"; "f2.py"; "f3.py"; "f4.py"; "f5.py"; "f6.py";
    "f7.py"; "f8.py" ].

Definition second_batch : list string := [ "f9.py" ].

(** The project of [listing_a]: the directories [locked] and [src]. *)
Definition project_a : project_info :=
  match analyze_directory id 5 "proj" (root_of (Some listing_a)) [] with
  | Ok pi => pi
  | Raise _ => empty_project "proj" "/home/proj"
  end.

(** Answers of a stub collaborator: JSON texts in a fenced block, and
    what [json.loads] makes of them. *)
Definition quoted (s : string) : string := String "034" s +:+ String "034" "".

Definition fenced (body : string) : string :=
  "Here is the description:" +:+ newline +:+ "```json" +:+ newline
  +:+ body +:+ newline +:+ "```" +:+ newline.

Definition block_json (dd : string) (files_json : string) : string :=
  "{" +:+ quoted "directory_description" +:+ ": " +:+ quoted dd +:+ ", "
  +:+ quoted "files" +:+ ": {" +:+ files_json +:+ "}}".

Definition good_json : string :=
  block_json "Good" (quoted "f0.py" +:+ ": " +:+ quoted "first file").

Definition empty_description_json : string :=
  block_json "" (quoted "/x" +:+ ": " +:+ quoted "desc x").

Definition second_json : string := block_json "second" "".

Definition block_value (dd : string) (fs : list (string * string)) : pyval :=
  PDict [("directory_description", PStr dd); ("files", PDict (str_items fs))].

Definition stub_loads (content : string) : loads_result :=
  if String.eqb content good_json
  then Loaded (block_value "Good" [("f0.py", "first file")])
  else if String.eqb content empty_description_json
  then Loaded (block_value "" [("/x", "desc x")])
  else if String.eqb content second_json
  then Loaded (block_value "second" [])
  else LoadsDecodeError.

(** Every request gets the same good block. *)
Definition good_stub : collaborators :=
  mk_collaborators (fun _ _ => LlmText (fenced good_json)) stub_loads.







(* ===================================================================== *)
(** * Part II: properties                                                 *)
(* ===================================================================== *)

(** ** Strings *)

Local Arguments String.append !_ _ / : simpl nomatch.

Lemma append_nil_r (s : string) : s +:+ "" = s.
Proof. induction s as [|c s IH]; simpl; [done|]. by rewrite IH. Qed.

Lemma append_assoc (a b c : string) : (a +:+ b) +:+ c = a +:+ (b +:+ c).
Proof. induction a as [|x a IH]; simpl; [done|]. by rewrite IH. Qed.

Lemma append_length (a b : string) :
  String.length (a +:+ b) = (String.length a + String.length b)%nat.
Proof. induction a as [|x a IH]; simpl; [done|]. by rewrite IH. Qed.

Lemma startswith_spec (s p : string) :
  startswith s p = true <-> exists r, s = p +:+ r.
Proof.
  unfold startswith. revert s. induction p as [|c p IH]; intros s.
  - destruct s; simpl; split; eauto.
  - destruct s as [|d s]; simpl.
    + split; [done|]. by intros [r Hr].
    + destruct (ascii_dec c d) as [->|Hne].
      * rewrite IH. split; intros [r Hr]; exists r; simpl in *; congruence.
      * split; [done|]. intros [r Hr]. simpl in Hr. congruence.
Qed.

Lemma endswith_spec (s suf : string) :
  endswith s suf = true <-> exists r, s = r +:+ suf.
Proof.
  induction s as [|c s IH]; cbn [endswith].
  - destruct (String.eqb_spec "" suf) as [<-|Hne].
    + split; [|done]. by exists "".
    + split; [done|]. intros [r Hr]. destruct r; simpl in Hr; congruence.
  - destruct (String.eqb_spec (String c s) suf) as [<-|Hne].
    + split; [|done]. by exists "".
    + rewrite IH. split.
      * intros [r ->]. by exists (String c r).
      * intros [r Hr]. destruct r as [|d r]; simpl in Hr; [congruence|].
        exists r. congruence.
Qed.

Lemma drop_last_snoc (s : string) (c : ascii) :
  drop_last (s +:+ String c "") = s.
Proof.
  induction s as [|d s IH]; simpl; [done|].
  rewrite IH. by destruct s.
Qed.

Lemma drop_str_app (a b : string) : drop_str (String.length a) (a +:+ b) = b.
Proof. induction a as [|x a IH]; simpl; [by destruct b|done]. Qed.

Lemma is_upper_lower_char (c : ascii) : is_upper (lower_char c) = false.
Proof. by destruct c as [[] [] [] [] [] [] [] []]. Qed.


Lemma has_upper_lower (s : string) : has_upper (lower s) = false.
Proof.
  induction s as [|c s IH]; simpl; [done|].
  by rewrite is_upper_lower_char, IH.
Qed.


Lemma has_upper_app (a b : string) :
  has_upper (a +:+ b) = has_upper a || has_upper b.
Proof.
  induction a as [|x a IH]; simpl; [done|].
  rewrite IH. by rewrite orb_assoc.
Qed.

(** ** The ignore rules *)

Lemma existsb_elements (f : string -> bool) (X : gset string) :
  existsb f (elements X) = true <-> exists x, x ∈ X /\ f x = true.
Proof.
  rewrite existsb_exists. split; intros (x & Hx & Hf); exists x; split; try done.
  - by apply elem_of_elements, list_elem_of_In.
  - by apply list_elem_of_In, elem_of_elements.
Qed.

Lemma should_ignore_true (name : string) (rules : gset string) :
  should_ignore name rules = true <->
  lower name ∈ rules \/ exists rule, rule ∈ rules /\ pattern_matches (lower name) rule = true.
Proof.
  unfold should_ignore. case_bool_decide as Hin.
  - split; auto.
  - rewrite existsb_elements. split; [auto|]. by intros [?|?].
Qed.

(** What one rule matches, in words: a rule [*rest] matches the names
    ending in [rest], a rule [rest*] the names starting with [rest]. *)
Lemma pattern_matches_spec (name rule : string) :
  pattern_matches name rule = true <->
  (exists rest, rule = "*" +:+ rest /\ exists front, name = front +:+ rest)
  \/ (exists rest, rule = rest +:+ "*" /\ exists back, name = rest +:+ back).
Proof.
  unfold pattern_matches. rewrite orb_true_iff, !andb_true_iff.
  rewrite !startswith_spec, !endswith_spec. split.
  - intros [[[r ->] Hs]|[[r ->] Hp]].
    + left. exists r. split; [done|]. simpl in Hs. done.
    + right. exists r. split; [done|]. by rewrite drop_last_snoc in Hp.
  - intros [(r & -> & Hs)|(r & -> & Hp)].
    + left. split; [by exists r|]. simpl. done.
    + right. split; [by exists r|]. by rewrite drop_last_snoc.
Qed.

Lemma uppercase_rule_no_match (name rule : string) :
  has_upper rule = true -> pattern_matches (lower name) rule = false.
Proof.
  intros Hup. apply not_true_is_false. rewrite pattern_matches_spec.
  intros [(r & -> & f & Hn)|(r & -> & b & Hn)].
  - simpl in Hup. assert (has_upper (lower name) = true) as Hc.
    { rewrite Hn, has_upper_app, Hup. apply orb_true_r. }
    by rewrite has_upper_lower in Hc.
  - rewrite has_upper_app in Hup. simpl in Hup. rewrite orb_false_r in Hup.
    assert (has_upper (lower name) = true) as Hc.
    { rewrite Hn, has_upper_app, Hup. done. }
    by rewrite has_upper_lower in Hc.
Qed.

Lemma uppercase_rule_not_name (name rule : string) :
  has_upper rule = true -> lower name <> rule.
Proof. intros Hup <-. by rewrite has_upper_lower in Hup. Qed.




(** ** File records *)



(** ** The scanner: the file-count ceiling *)


Lemma kept_in_sorted (I : gset string) (l : list fsnode) :
  kept_in I (sorted_listing l) = kept_in I l.
Proof. unfold kept_in, sorted_listing. by rewrite merge_sort_Permutation. Qed.


Lemma total_files_record_file fi rel pi :
  total_files (stats (record_file fi rel pi)) = total_files (stats pi).
Proof. done. Qed.

Section scanner.
Variable I : gset string.

Lemma kept_in_cons x todo :
  kept_in I (x :: todo)
  = ((if should_ignore (node_name x) I then 0 else kept_files I x)
     + kept_in I todo)%nat.
Proof. done. Qed.

Lemma kept_files_dir name sub :
  kept_files I (FsDir name sub) = kept_listing I sub.
Proof. by destruct sub. Qed.

Lemma scan_loop_outcome recurse cp rp :
  (forall sub cp' rp' pi, scan_outcome (recurse sub cp' rp' pi) pi (kept_listing I sub)) ->
  forall todo items pi,
    scan_outcome (scan_loop I recurse cp rp todo items pi) pi (kept_in I todo).
Proof.
  intros Hrec todo. induction todo as [|x todo IH]; intros items pi.
  { simpl. split; [lia|]. unfold kept_in; simpl; lia. }
  rewrite kept_in_cons. cbn [scan_loop].
  set (k := kept_in I todo) in *. clearbody k.
  destruct (should_ignore (node_name x) I) eqn:Hig; [apply IH|].
  destruct x as [name data|name sub]; cbn [node_name].
  - change (kept_files I (FsFile name data)) with 1%nat.
    unfold scan_file. cbn [count_file stats total_files].
    destruct (Z.ltb_spec 500 (total_files (stats pi) + 1)) as [Hov|Hov].
    + right. split; [done|]. lia.
    + match goal with |- context [scan_loop _ _ _ _ _ ?it ?p] =>
        specialize (IH it p) end.
      destruct (scan_loop _ _ _ _ _ _ _) as [[its pi']|e]; cbn [scan_outcome] in *;
        rewrite total_files_record_file in IH;
        cbn [count_file stats total_files] in IH.
      * destruct IH as [Ht Hk].
        split; [lia|]. intros _. destruct k; [lia|]. apply Hk. lia.
      * destruct IH as [->|[-> Hk]]; [by left|right]. split; [done|]. lia.
  - rewrite kept_files_dir.
    match goal with |- context [recurse ?a ?b ?c ?p] =>
      pose proof (Hrec a b c p) as Hsub end.
    set (ks := kept_listing I sub) in *. clearbody ks.
    destruct (recurse _ _ _ _) as [[sub_items pi1]|e]; cbn [scan_outcome] in *.
    + destruct Hsub as [Ht1 Hk1]. cbn [record_directory stats total_files] in Ht1.
      match goal with |- context [scan_loop _ _ _ _ _ ?it ?p] =>
        specialize (IH it p) end.
      destruct (scan_loop _ _ _ _ _ _ _) as [[its pi']|e]; cbn [scan_outcome] in *.
      * destruct IH as [Ht Hk]. split; [lia|]. intros Hpos.
        destruct k; [|apply Hk; lia].
        replace (total_files (stats pi')) with (total_files (stats pi1)) by lia.
        apply Hk1. lia.
      * destruct IH as [->|[-> Hk]]; [by left|right]. split; [done|]. lia.
    + cbn [record_directory stats total_files] in Hsub.
      destruct Hsub as [->|[-> Hk]]; [by left|right]. split; [done|]. lia.
Qed.

Lemma scan_directory_outcome depth listing cp rp pi :
  scan_outcome (scan_directory I depth listing cp rp pi) pi (kept_listing I listing).
Proof.
  revert listing cp rp pi. induction depth as [|d IH]; intros listing cp rp pi.
  { by left. }
  simpl. destruct listing as [l|].
  - simpl. rewrite <-kept_in_sorted. by apply scan_loop_outcome.
  - simpl. split; lia.
Qed.


End scanner.

(** ** The scanner: errors *)

(** C8, as the code has it. When the root path does not resolve to an
    existing directory, [analyze_directory] raises [FileNotFoundError]
    with the fixed message followed by the path given, and so returns no
    project model. *)
Theorem analyze_directory_rejects_non_directory
    (set_order : list string -> list string) (depth : nat) (path_arg : string)
    (root : resolved_root) (ignore_folders : list string) :
  (forall listing, root_node root <> RootDirectory listing) ->
  analyze_directory set_order depth path_arg root ignore_folders
  = Raise (FileNotFoundError
             ("Project path does not exist or is not a directory: " +:+ path_arg)).
Proof.
  intros Hroot. unfold analyze_directory.
  destruct (root_node root) as [| |listing]; [done|done|].
  by destruct (Hroot listing).
Qed.

Lemma analyze_directory_rejects_non_directory_witness :
  analyze_directory id 1000 "gone" (mk_resolved_root "gone" "/tmp/gone" RootMissing) []
  = Raise (FileNotFoundError
             "Project path does not exist or is not a directory: gone").
Proof.
  apply (analyze_directory_rejects_non_directory id 1000 "gone"
           (mk_resolved_root "gone" "/tmp/gone" RootMissing) []).
  intros listing. simpl. discriminate.
Defined.

(** C8 as stated fails: for a missing root, and for a root that is a
    regular file, the exception is a [FileNotFoundError], not a
    [NotADirectoryError]. *)
Lemma analyze_directory_error_class_counterexample :
  let missing := mk_resolved_root "gone" "/tmp/gone" RootMissing in
  let regular := mk_resolved_root "a.txt" "/tmp/a.txt" RootNotDirectory in
  (exists msg, analyze_directory id 1000 "gone" missing [] = Raise (mk_exn "FileNotFoundError" msg))
  /\ (exists msg, analyze_directory id 1000 "a.txt" regular [] = Raise (mk_exn "FileNotFoundError" msg))
  /\ ~ (exists msg, analyze_directory id 1000 "gone" missing [] = Raise (mk_exn "NotADirectoryError" msg))
  /\ ~ (exists msg, analyze_directory id 1000 "a.txt" regular [] = Raise (mk_exn "NotADirectoryError" msg)).
Proof.
  repeat split.
  - eexists. reflexivity.
  - eexists. reflexivity.
  - intros [msg H]. vm_compute in H. discriminate.
  - intros [msg H]. vm_compute in H. discriminate.
Qed.

(** A directory root never gives that error: the scan ends in a model,
    in the ceiling error or at the recursion limit. *)
Lemma analyze_directory_outcome set_order depth path_arg root listing ignore_folders :
  root_node root = RootDirectory listing ->
  match analyze_directory set_order depth path_arg root ignore_folders with
  | Ok pi =>
      total_files (stats pi)
      = Z.of_nat (kept_listing (default_ignore ∪ list_to_set ignore_folders) listing)
      /\ (total_files (stats pi) <= 500)%Z
  | Raise e =>
      e = RecursionError
      \/ (e = too_many_files
          /\ 500 < kept_listing (default_ignore ∪ list_to_set ignore_folders) listing)
  end.
Proof.
  intros Hroot. unfold analyze_directory. rewrite Hroot.
  match goal with |- context [scan_directory ?I ?d ?l ?cp ?rp ?p] =>
    pose proof (scan_directory_outcome I d l cp rp p) as H end.
  destruct (scan_directory _ _ _ _ _ _) as [[items pi]|e]; simpl in *.
  - destruct H as [Ht Hk]. split; [lia|].
    destruct (kept_listing _ listing); [lia|]. apply Hk. lia.
  - destruct H as [->|[-> Hk]]; [by left|right]. split; [done|]. lia.
Qed.




(** ** The scanner: independence of the enumeration order *)



Lemma name_le_trans : Transitive name_le.
Proof. intros x y z. unfold name_le. apply transitivity. Qed.

Lemma name_le_total : Total name_le.
Proof. intros x y. unfold name_le. apply total. apply _. Qed.

Lemma sorted_listing_sorted l : StronglySorted name_le (sorted_listing l).
Proof.
  apply (@StronglySorted_merge_sort _ name_le _ name_le_trans name_le_total).
Qed.

Lemma sorted_listing_perm l : sorted_listing l ≡ₚ l.
Proof. apply merge_sort_Permutation. Qed.





Section enumeration_order.
Variable I : gset string.


End enumeration_order.



(** ** The tree renderer: reading the text back *)

Lemma item_ind_nested (P : item -> Prop) :
  (forall name path sub_items, Forall P sub_items -> P (ItemDirectory name path sub_items)) ->
  (forall name path size extension, P (ItemFile name path size extension)) ->
  forall it, P it.
Proof.
  intros Hd Hf. fix IH 1. intros [name path sub_items|name path size extension].
  - apply Hd. induction sub_items as [|x l IHl]; constructor; [apply IH|apply IHl].
  - apply Hf.
Qed.

Lemma has_char_app c a b : has_char c (a +:+ b) = has_char c a || has_char c b.
Proof.
  induction a as [|x a IH]; simpl; [done|]. by rewrite IH, orb_assoc.
Qed.

Lemma split_lines_line (l rest : string) :
  has_char "010" l = false ->
  split_lines (l +:+ newline +:+ rest) = l :: split_lines rest.
Proof.
  induction l as [|c l IH]; intros Hl; [done|].
  cbn [has_char] in Hl. apply orb_false_iff in Hl as [Hc Hl].
  change (String c l +:+ newline +:+ rest) with (String c (l +:+ newline +:+ rest)).
  cbn [split_lines]. by rewrite Hc, (IH Hl).
Qed.

Lemma depth_prefix_no_newline d p : depth_prefix d p -> has_char "010" p = false.
Proof. induction 1; [done| |]; rewrite has_char_app; by rewrite IHdepth_prefix. Qed.

Lemma depth_prefix_snoc d p (last : bool) :
  depth_prefix d p ->
  depth_prefix (S d) (p +:+ (if last then blank_extension else bar_extension)).
Proof.
  induction 1 as [|d p Hp IH|d p Hp IH].
  - destruct last; rewrite <-(append_nil_r (_ : string)); constructor; constructor.
  - rewrite append_assoc. by constructor.
  - rewrite append_assoc. by constructor.
Qed.

Lemma depth_prefix_length d p : depth_prefix d p -> d <= String.length p.
Proof.
  induction 1 as [|d p Hp IH|d p Hp IH]; [done| |];
    rewrite append_length; simpl; lia.
Qed.

Lemma startswith_self (p r : string) : startswith (p +:+ r) p = true.
Proof. apply startswith_spec. by exists r. Qed.

Lemma parse_line_connector (last : bool) name fuel :
  parse_line (S fuel)
    ((if last then terminal_connector else branch_connector) +:+ name)
  = Some (0%nat, name).
Proof.
  cbn [parse_line]. destruct last.
  - replace (startswith (terminal_connector +:+ name) branch_connector)
      with false by reflexivity.
    by rewrite startswith_self, drop_str_app.
  - by rewrite startswith_self, drop_str_app.
Qed.

Lemma parse_line_spec d p (last : bool) name fuel :
  depth_prefix d p -> d < fuel ->
  parse_line fuel
    (p +:+ (if last then terminal_connector else branch_connector) +:+ name)
  = Some (d, name).
Proof.
  intros Hp. revert fuel. induction Hp as [|d p Hp IH|d p Hp IH]; intros [|fuel] Hf;
    try lia.
  - apply parse_line_connector.
  - rewrite append_assoc. cbn [parse_line].
    replace (startswith (bar_extension +:+ _) branch_connector)
      with false by reflexivity.
    replace (startswith (bar_extension +:+ _) terminal_connector)
      with false by reflexivity.
    rewrite startswith_self, drop_str_app, IH by lia. done.
  - rewrite append_assoc. cbn [parse_line].
    replace (startswith (blank_extension +:+ _) branch_connector)
      with false by reflexivity.
    replace (startswith (blank_extension +:+ _) terminal_connector)
      with false by reflexivity.
    replace (startswith (blank_extension +:+ _) bar_extension)
      with false by reflexivity.
    rewrite startswith_self, drop_str_app, IH by lia. done.
Qed.

(** The rows read from a text: [parse_lines] of its lines. *)
Lemma rows_of_line d p (last : bool) name rest :
  depth_prefix d p -> has_char "010" name = false ->
  parse_lines
    (split_lines
       ((p +:+ (if last then terminal_connector else branch_connector)
           +:+ name +:+ newline) +:+ rest))
  = match parse_lines (split_lines rest) with
    | Some rows => Some ((d, name) :: rows)
    | None => None
    end.
Proof.
  intros Hp Hn.
  replace ((p +:+ (if last then terminal_connector else branch_connector)
              +:+ name +:+ newline) +:+ rest)
    with ((p +:+ (if last then terminal_connector else branch_connector) +:+ name)
            +:+ newline +:+ rest)
    by (by rewrite !append_assoc).
  rewrite split_lines_line.
  - cbn [parse_lines]. rewrite (parse_line_spec d p last name); [done|done|].
    rewrite !append_length. pose proof (depth_prefix_length d p Hp). lia.
  - rewrite !has_char_app, (depth_prefix_no_newline d p Hp), Hn. by destruct last.
Qed.

Lemma rows_of_item (it : item) :
  forall p d (last : bool) rest, depth_prefix d p -> line_names it = true ->
    parse_lines (split_lines (render_item it p last +:+ rest))
    = match parse_lines (split_lines rest) with
      | Some rows => Some (item_rows d it ++ rows)
      | None => None
      end.
Proof.
  induction it as [name path sub_items IH|name path size extension]
    using item_ind_nested; intros p d last rest Hp Hn.
  - cbn [line_names item_name] in Hn. apply andb_true_iff in Hn as [Hn Hsub].
    apply negb_true_iff in Hn.
    cbn [render_item item_name item_rows]. rewrite append_assoc.
    rewrite (rows_of_line d p last name) by done.
    pose proof (depth_prefix_snoc d p last Hp) as Hp'.
    set (p' := p +:+ (if last then blank_extension else bar_extension)) in *.
    clearbody p'.
    assert (parse_lines (split_lines (tree_loop render_item p' sub_items +:+ rest))
            = match parse_lines (split_lines rest) with
              | Some rows => Some (flat_map (item_rows (S d)) sub_items ++ rows)
              | None => None
              end) as ->.
    { clear Hp. revert Hsub. induction IH as [|x l Hx _ IHl]; intros Hsub.
      - simpl. by destruct (parse_lines _).
      - cbn [forallb] in Hsub. apply andb_true_iff in Hsub as [Hx' Hl].
        cbn [tree_loop flat_map]. rewrite append_assoc, (Hx p' (S d)) by done.
        rewrite (IHl Hl). destruct (parse_lines (split_lines rest)); [|done].
        by rewrite app_assoc. }
    by destruct (parse_lines _).
  - cbn [line_names item_name] in Hn. rewrite andb_true_r in Hn.
    apply negb_true_iff in Hn.
    cbn [render_item item_name item_rows]. rewrite append_nil_r.
    rewrite (rows_of_line d p last name) by done. by destruct (parse_lines _).
Qed.

Lemma rows_of_tree (structure : list item) p d rest :
  depth_prefix d p -> forallb line_names structure = true ->
  parse_lines (split_lines (tree_loop render_item p structure +:+ rest))
  = match parse_lines (split_lines rest) with
    | Some rows => Some (flat_map (item_rows d) structure ++ rows)
    | None => None
    end.
Proof.
  intros Hp. induction structure as [|x l IH]; intros Hn.
  - simpl. by destruct (parse_lines _).
  - cbn [forallb] in Hn. apply andb_true_iff in Hn as [Hx Hl].
    cbn [tree_loop flat_map]. rewrite append_assoc, (rows_of_item x p d) by done.
    rewrite (IH Hl). destruct (parse_lines (split_lines rest)); [|done].
    by rewrite app_assoc.
Qed.

Lemma stops_weaken d rows : stops d rows -> stops (S d) rows.
Proof. destruct rows as [|[d' n] rows]; simpl; [done|lia]. Qed.

Lemma build_forest_rows fuel :
  forall (l : list item) d rest,
    length (flat_map (item_rows d) l ++ rest) < fuel -> stops d rest ->
    build_forest fuel d (flat_map (item_rows d) l ++ rest) = (map shape_of l, rest).
Proof.
  induction fuel as [|fuel IH]; intros l d rest Hlen Hstop; [lia|].
  destruct l as [|it l].
  - simpl. destruct rest as [|[d' n] rest]; [done|]. simpl in Hstop.
    by rewrite (proj2 (Nat.eqb_neq d' d)) by lia.
  - assert (stops (S d) (flat_map (item_rows d) l ++ rest)) as Hstop'.
    { destruct l as [|[] l]; [by apply stops_weaken| |]; simpl; lia. }
    assert (exists sub_items,
               item_rows d it = (d, item_name it) :: flat_map (item_rows (S d)) sub_items
               /\ shape_of it = Node (item_name it) (map shape_of sub_items))
      as (sub_items & Hrows & Hshape).
    { destruct it as [name path sub_items|name path size extension].
      - by exists sub_items.
      - by exists []. }
    cbn [flat_map map] in *. rewrite Hrows, Hshape in *. clear Hrows Hshape.
    rewrite <-app_assoc in *. rewrite <-app_comm_cons in *.
    cbn [length] in Hlen. rewrite length_app in Hlen.
    cbn [build_forest]. rewrite Nat.eqb_refl.
    rewrite (IH sub_items (S d)); [| rewrite length_app; lia | done].
    rewrite (IH l d); [done| lia | done].
Qed.

(** C9, for names without line feeds. Reading the rendered tree back
    by connector shape gives the nesting and the sibling order of the
    structural tree. *)
Theorem tree_view_round_trip (structure : list item) (is_last : bool) :
  forallb line_names structure = true ->
  parse_tree (generate_tree_view structure "" is_last) = Some (map shape_of structure).
Proof.
  intros Hn. unfold parse_tree, generate_tree_view.
  pose proof (rows_of_tree structure "" 0 "" depth_prefix_O Hn) as Hrows.
  rewrite append_nil_r in Hrows. rewrite Hrows. cbn [split_lines parse_lines].
  rewrite app_nil_r.
  pose proof (build_forest_rows (S (length (flat_map (item_rows 0) structure)))
                structure 0 []) as Hb.
  rewrite app_nil_r in Hb. rewrite Hb; [done|lia|done].
Qed.

Lemma tree_view_round_trip_witness :
  parse_tree (generate_tree_view sample_structure "" true)
  = Some (map shape_of sample_structure).
Proof. apply (tree_view_round_trip sample_structure true). reflexivity. Defined.

(** C9 as stated fails for a name with a line feed in it: the file
    [one_file] and the directory [dir_with_file] have the same rendering
    and different nestings, so no reader of the text gives back both. *)
Lemma tree_view_not_injective_counterexample :
  generate_tree_view one_file "" true = generate_tree_view dir_with_file "" true
  /\ map shape_of one_file <> map shape_of dir_with_file
  /\ parse_tree (generate_tree_view one_file "" true) <> Some (map shape_of one_file).
Proof. split; [by vm_compute|]. split; by vm_compute. Qed.

(** ** The description pipeline: one batch *)













(** ** The description pipeline: the batches of a directory *)



Section directory.
Variable c : collaborators.
Variable dir_path : string.



(** When every batch is answered by a block. *)
Variable dd : list string -> string.
Variable fs : list string -> list (string * string).


End directory.

(** ** The description pipeline: the whole run *)

Lemma dict_get_keys {V} (d : list (string * V)) k :
  dict_get d k <> None -> k ∈ map fst d.
Proof.
  induction d as [|[k' v] d IH]; simpl; [done|].
  destruct (String.eqb_spec k' k) as [->|Hne]; intros H; [by left|].
  right. by apply IH.
Qed.

Lemma directories_in_dir_order files_by_dir dirs d :
  d ∈ dirs -> d ∈ dir_order files_by_dir dirs.
Proof.
  intros Hd. unfold dir_order. apply elem_of_app.
  destruct (dict_get files_by_dir d) eqn:Hg.
  - left. apply dict_get_keys. by rewrite Hg.
  - right. by apply list_elem_of_filter.
Qed.

Section run.
Variable c : collaborators.
Variable fbd : list (string * list scanned_file).

Lemma run_directories dirs acc d :
  desc_directories (foldl (describe_directory c fbd) acc dirs) !! d
  = if bool_decide (d ∈ dirs)
    then Some (describe_batches c d (file_list_of fbd d)).1
    else desc_directories acc !! d.
Proof.
  revert acc. induction dirs as [|x dirs IH]; intros acc; [done|].
  cbn [foldl]. rewrite IH. cbn [describe_directory desc_directories].
  case_bool_decide as Hin; case_bool_decide as Hin'; try done.
  - destruct Hin'. by right.
  - apply elem_of_cons in Hin' as [->|?]; [|done]. by rewrite lookup_insert_eq.
  - rewrite lookup_insert_ne; [done|]. intros ->. apply Hin'. by left.
Qed.



End run.

(** ** The description pipeline: the claims *)

(** Decide a closed proposition by evaluation. *)
Ltac by_compute := apply (bool_decide_unpack _); vm_compute; exact I.

(** C4. After a run of [generate_descriptions], every directory of the
    flat directory list is a key of the directory descriptions; a
    directory without kept files gets the empty description, as no
    request is made for it. *)
Theorem every_directory_is_described (c : collaborators) (pi : project_info)
    (d : string) :
  d ∈ directories pi ->
  is_Some (desc_directories (generate_descriptions c pi) !! d)
  /\ (dict_get (group_files (files pi)) d = None ->
      desc_directories (generate_descriptions c pi) !! d = Some (PStr "")).
Proof.
  intros Hd. unfold generate_descriptions. rewrite run_directories.
  rewrite bool_decide_eq_true_2 by (by apply directories_in_dir_order).
  split; [done|]. intros Hnone. unfold file_list_of. by rewrite Hnone.
Qed.

Lemma every_directory_is_described_witness :
  is_Some (desc_directories (generate_descriptions good_stub project_a) !! "locked")
  /\ is_Some (desc_directories (generate_descriptions good_stub project_a) !! "src").
Proof.
  split.
  - apply (every_directory_is_described good_stub project_a "locked").
    by_compute.
  - apply (every_directory_is_described good_stub project_a "src").
    by_compute.
Defined.










(* ===================================================================== *)
(** * Part III: further properties of the program                         *)
(* ===================================================================== *)

(** ** The scanner: an induction principle for scans that return *)

Section scan_induction.
Variable I : gset string.
Variable Q : string -> string -> list fsnode -> project_info -> list item -> project_info -> Prop.
Variable D : string -> string -> option (list fsnode) -> project_info -> list item -> project_info -> Prop.

Hypothesis Q_nil : forall cp rp pi, Q cp rp [] pi [] pi.
Hypothesis Q_skip : forall cp rp x todo pi new pi',
  should_ignore (node_name x) I = true ->
  Q cp rp todo pi new pi' -> Q cp rp (x :: todo) pi new pi'.
Hypothesis Q_file : forall cp rp name data todo pi it pi1 new pi',
  should_ignore name I = false ->
  scan_file cp (child_relative rp name) name data pi = Ok (it, pi1) ->
  Q cp rp todo pi1 new pi' ->
  Q cp rp (FsFile name data :: todo) pi (it :: new) pi'.
Hypothesis Q_dir : forall cp rp name sub todo pi sub_items pi1 new pi',
  should_ignore name I = false ->
  D (os_path_join cp name) (child_relative rp name) sub
    (record_directory (child_relative rp name) pi) sub_items pi1 ->
  Q cp rp todo pi1 new pi' ->
  Q cp rp (FsDir name sub :: todo) pi
    (ItemDirectory name (child_relative rp name) sub_items :: new) pi'.
Hypothesis D_none : forall cp rp pi, D cp rp None pi [] pi.
Hypothesis D_some : forall cp rp l pi new pi',
  Q cp rp (sorted_listing l) pi new pi' -> D cp rp (Some l) pi new pi'.

Lemma scan_loop_returns recurse cp rp :
  (forall sub cp' rp' pi items pi',
     recurse sub cp' rp' pi = Ok (items, pi') -> D cp' rp' sub pi items pi') ->
  forall todo items pi items' pi',
    scan_loop I recurse cp rp todo items pi = Ok (items', pi') ->
    exists new, items' = items ++ new /\ Q cp rp todo pi new pi'.
Proof.
  intros Hrec todo. induction todo as [|x todo IH]; intros items pi items' pi' Hrun.
  { injection Hrun as <- <-. exists []. by rewrite app_nil_r. }
  cbn [scan_loop] in Hrun.
  destruct (should_ignore (node_name x) I) eqn:Hig.
  { destruct (IH _ _ _ _ Hrun) as (new & -> & Hq). exists new. split; [done|].
    by apply Q_skip. }
  destruct x as [name data|name sub]; cbn [node_name] in *.
  - fold (child_relative rp name) in Hrun.
    destruct (scan_file cp (child_relative rp name) name data pi)
      as [[it pi1]|e] eqn:Hfile; [|done].
    destruct (IH _ _ _ _ Hrun) as (new & -> & Hq). exists (it :: new).
    split; [by rewrite <-app_assoc|]. by apply (Q_file _ _ _ _ _ _ _ pi1).
  - fold (child_relative rp name) in Hrun.
    destruct (recurse sub (os_path_join cp name) (child_relative rp name)
                (record_directory (child_relative rp name) pi))
      as [[sub_items pi1]|e] eqn:Hsub; [|done].
    destruct (IH _ _ _ _ Hrun) as (new & -> & Hq).
    exists (ItemDirectory name (child_relative rp name) sub_items :: new).
    split; [by rewrite <-app_assoc|].
    apply (Q_dir _ _ _ _ _ _ _ pi1); [done| |done]. by apply Hrec.
Qed.

Lemma scan_directory_returns depth :
  forall listing cp rp pi items pi',
    scan_directory I depth listing cp rp pi = Ok (items, pi') ->
    D cp rp listing pi items pi'.
Proof.
  induction depth as [|d IH]; intros listing cp rp pi items pi' Hrun; [done|].
  cbn [scan_directory] in Hrun. destruct listing as [l|].
  - apply scan_loop_returns in Hrun as (new & -> & Hq); [|done].
    by apply D_some.
  - injection Hrun as <- <-. apply D_none.
Qed.
End scan_induction.

(** ** The scanner: the statistics are those of the flat lists *)

Lemma sum_sizes_snoc fs f :
  sum_sizes (fs ++ [f]) = (sum_sizes fs + get_size (sf_info f))%Z.
Proof.
  unfold sum_sizes. induction fs as [|x fs IH]; simpl; [lia|]. rewrite IH. lia.
Qed.

Lemma omap_singleton {A B} (f : A -> option B) (x : A) :
  omap f [x] = match f x with Some y => [y] | None => [] end.
Proof. done. Qed.

Lemma counted_record_directory rel pi :
  counted pi -> counted (record_directory rel pi).
Proof.
  intros (Hf & Hd & Hc & Hs & Ht & Hl). unfold counted. simpl.
  repeat split; try done. rewrite length_app. simpl. lia.
Qed.

Lemma scan_file_returns cp rel name data pi it pi1 :
  scan_file cp rel name data pi = Ok (it, pi1) ->
  let fi := get_file_info (os_path_join cp name) name data in
  it = ItemFile name rel (get_size fi) (get_extension fi)
  /\ pi1 = record_file fi rel (count_file pi)
  /\ (total_files (stats pi) + 1 <= 500)%Z.
Proof.
  unfold scan_file. cbn [count_file stats total_files].
  destruct (Z.ltb_spec 500 (total_files (stats pi) + 1)); [done|].
  intros [= <- <-]. done.
Qed.

Lemma counted_record_file fi rel pi :
  counted pi -> counted (record_file fi rel (count_file pi)).
Proof.
  intros (Hf & Hd & Hc & Hs & Ht & Hl). unfold counted.
  cbn [record_file count_file stats files directories total_files
       total_directories code_files total_size file_types languages].
  rewrite length_app, filter_app, length_app, sum_sizes_snoc, map_app, foldl_app,
    omap_app. rewrite <-Ht, <-Hl, Hf, Hd, Hc, Hs.
  rewrite omap_singleton.
  cbn [length map foldl]. unfold file_language, is_code_file.
  cbn [sf_info].
  repeat split; try done; try lia.
  - set (n := length (filter _ (files pi))). clearbody n.
    rewrite filter_cons, filter_nil. cbn [sf_info].
    destruct (get_is_code fi) as [[]|]; case_decide; simpl; try done; lia.
  - cbn [sf_info]. generalize (dict_get lang_map (get_extension fi)). intros lang.
    destruct (get_is_code fi) as [[]|]; rewrite ?app_nil_r; try done.
    destruct lang; by rewrite ?app_nil_r.
Qed.

Lemma scan_directory_counted I depth listing cp rp pi items pi' :
  scan_directory I depth listing cp rp pi = Ok (items, pi') ->
  counted pi -> counted pi'.
Proof.
  apply (scan_directory_returns I
           (fun _ _ _ pi _ pi' => counted pi -> counted pi')
           (fun _ _ _ pi _ pi' => counted pi -> counted pi')); try by auto.
  - intros cp' rp' name data todo p it p1 new p' _ Hfile Hrest Hc.
    apply scan_file_returns in Hfile as (_ & -> & _).
    by apply Hrest, counted_record_file.
  - intros cp' rp' name sub todo p sub_items p1 new p' _ Hsub Hrest Hc.
    by apply Hrest, Hsub, counted_record_directory.
Qed.

Lemma analyze_directory_Ok set_order depth path_arg root ignore_folders pi :
  analyze_directory set_order depth path_arg root ignore_folders = Ok pi ->
  exists listing items pi0,
    root_node root = RootDirectory listing
    /\ scan_directory (default_ignore ∪ list_to_set ignore_folders) depth listing
         (root_str root) "" (empty_project (root_name root) (root_str root))
       = Ok (items, pi0)
    /\ structure pi = items /\ files pi = files pi0
    /\ directories pi = directories pi0
    /\ total_files (stats pi) = total_files (stats pi0)
    /\ total_directories (stats pi) = total_directories (stats pi0)
    /\ code_files (stats pi) = code_files (stats pi0)
    /\ total_size (stats pi) = total_size (stats pi0)
    /\ file_types (stats pi) = file_types (stats pi0)
    /\ languages (stats pi) = set_order (languages (stats pi0)).
Proof.
  unfold analyze_directory. destruct (root_node root) as [| |listing]; try done.
  destruct (scan_directory _ _ _ _ _ _) as [[items pi0]|e] eqn:Hscan; [|done].
  intros [= <-]. exists listing, items, pi0. by repeat split.
Qed.

Lemma counted_empty name root : counted (empty_project name root).
Proof. by repeat split. Qed.

(** X1. In a model returned by the scan the counters are those of the
    flat lists: [total_files] and [total_directories] are their lengths,
    [code_files] is the number of records with a true [is_code],
    [total_size] is the sum of the sizes, and there are at most 500
    files. *)
Theorem statistics_count_the_flat_lists
    (set_order : list string -> list string) (depth : nat) (path_arg : string)
    (root : resolved_root) (ignore_folders : list string) (pi : project_info) :
  analyze_directory set_order depth path_arg root ignore_folders = Ok pi ->
  total_files (stats pi) = Z.of_nat (length (files pi))
  /\ total_directories (stats pi) = Z.of_nat (length (directories pi))
  /\ code_files (stats pi)
     = Z.of_nat (length (filter (fun f => is_code_file f = true) (files pi)))
  /\ total_size (stats pi) = sum_sizes (files pi)
  /\ (code_files (stats pi) <= total_files (stats pi) <= 500)%Z.
Proof.
  intros Hrun. pose proof Hrun as Hrun'.
  apply analyze_directory_Ok in Hrun
    as (listing & items & pi0 & Hroot & Hscan & _ & Hf & Hd & Ht & Htd & Hc & Hs & _).
  pose proof (scan_directory_counted _ _ _ _ _ _ _ _ Hscan (counted_empty _ _))
    as (Cf & Cd & Cc & Cs & _).
  pose proof (analyze_directory_outcome set_order depth path_arg root listing
                ignore_folders Hroot) as Hout.
  rewrite Hrun' in Hout. destruct Hout as [_ Hle].
  pose proof (length_filter (fun f => is_code_file f = true) (files pi0)) as Hlen.
  rewrite Ht, Htd, Hc, Hs, Hf, Hd in *. repeat split; try done; lia.
Qed.

Lemma project_a_scanned :
  analyze_directory id 5 "proj" (root_of (Some listing_a)) [] = Ok project_a.
Proof. by vm_compute. Qed.

Lemma statistics_count_the_flat_lists_witness :
  total_files (stats project_a) = Z.of_nat (length (files project_a))
  /\ total_directories (stats project_a) = Z.of_nat (length (directories project_a))
  /\ code_files (stats project_a)
     = Z.of_nat (length (filter (fun f => is_code_file f = true) (files project_a)))
  /\ total_size (stats project_a) = sum_sizes (files project_a)
  /\ (code_files (stats project_a) <= total_files (stats project_a) <= 500)%Z.
Proof.
  apply (statistics_count_the_flat_lists id 5 "proj" (root_of (Some listing_a)) []
           project_a).
  apply project_a_scanned.
Defined.

(** ** The scanner: file types and languages *)

Lemma dict_get_set_eq {V} (d : list (string * V)) k v :
  dict_get (dict_set d k v) k = Some v.
Proof.
  induction d as [|[k' v'] d IH]; simpl.
  - by rewrite String.eqb_refl.
  - destruct (String.eqb_spec k' k) as [->|Hne]; simpl.
    + by rewrite String.eqb_refl.
    + by rewrite (proj2 (String.eqb_neq k' k)).
Qed.

Lemma dict_get_set_ne {V} (d : list (string * V)) k k' v :
  k <> k' -> dict_get (dict_set d k v) k' = dict_get d k'.
Proof.
  intros Hne. induction d as [|[k0 v0] d IH]; simpl.
  - by rewrite (proj2 (String.eqb_neq k k')).
  - destruct (String.eqb_spec k0 k) as [->|Hne0]; simpl.
    + by rewrite (proj2 (String.eqb_neq k k')).
    + destruct (String.eqb k0 k'); [done|apply IH].
Qed.

Lemma file_types_lookup (exts : list string) (e : string) :
  dict_get (foldl bump_type [] exts) e
  = if String.eqb e "" then None
    else match length (filter (fun x => x = e) exts) with
         | O => None
         | S n => Some (Z.of_nat (S n))
         end.
Proof.
  induction exts as [|x exts IH] using rev_ind.
  { simpl. by destruct (String.eqb e ""). }
  rewrite foldl_snoc, filter_app, length_app. unfold bump_type at 1.
  destruct (String.eqb_spec x "") as [->|Hx].
  - rewrite IH. destruct (String.eqb e "") eqn:He; [done|].
    apply String.eqb_neq in He.
    rewrite filter_cons, filter_nil. case_decide; [congruence|].
    simpl. by rewrite Nat.add_0_r.
  - destruct (decide (x = e)) as [->|Hne].
    + rewrite dict_get_set_eq, IH, (proj2 (String.eqb_neq e "")) by done.
      rewrite filter_cons, filter_nil. case_decide; [|done]. simpl.
      destruct (length (filter _ exts)) as [|n]; simpl.
      * done.
      * f_equal. lia.
    + rewrite dict_get_set_ne, IH by done.
      rewrite filter_cons, filter_nil. case_decide; [done|].
      simpl. by rewrite Nat.add_0_r.
Qed.

Lemma count_extension_map (e : string) (fs : list scanned_file) :
  length (filter (fun x => x = e) (map (fun f => get_extension (sf_info f)) fs))
  = count_extension e fs.
Proof.
  unfold count_extension. induction fs as [|f fs IH]; [done|].
  cbn [map]. rewrite !filter_cons. repeat case_decide; simpl; try done; by rewrite IH.
Qed.

(** X2. In a model returned by the scan, [file_types] maps every
    non-empty extension that some file has to the number of files that
    have it, and has no other key: no entry for the empty extension and
    none with a zero count. *)
Theorem file_types_count_extensions
    (set_order : list string -> list string) (depth : nat) (path_arg : string)
    (root : resolved_root) (ignore_folders : list string) (pi : project_info) :
  analyze_directory set_order depth path_arg root ignore_folders = Ok pi ->
  forall ext,
    dict_get (file_types (stats pi)) ext
    = if String.eqb ext "" then None
      else match count_extension ext (files pi) with
           | O => None
           | S n => Some (Z.of_nat (S n))
           end.
Proof.
  intros Hrun ext.
  apply analyze_directory_Ok in Hrun
    as (listing & items & pi0 & _ & Hscan & _ & Hf & _ & _ & _ & _ & _ & Ht & _).
  pose proof (scan_directory_counted _ _ _ _ _ _ _ _ Hscan (counted_empty _ _))
    as (_ & _ & _ & _ & Ct & _).
  by rewrite Ht, Ct, file_types_lookup, count_extension_map, Hf.
Qed.

Lemma file_types_count_extensions_witness :
  dict_get (file_types (stats project_a)) ".py"
  = if String.eqb ".py" "" then None
    else match count_extension ".py" (files project_a) with
         | O => None
         | S n => Some (Z.of_nat (S n))
         end.
Proof.
  apply (file_types_count_extensions id 5 "proj" (root_of (Some listing_a)) []
           project_a).
  apply project_a_scanned.
Defined.

(** X3. When [list(...)] enumerates exactly the members of the set, the
    [languages] of a returned model are the languages that [lang_map]
    gives to the extensions of the files classified as code, and nothing
    else. *)
Theorem languages_are_those_of_code_files
    (set_order : list string -> list string) (depth : nat) (path_arg : string)
    (root : resolved_root) (ignore_folders : list string) (pi : project_info) :
  (forall adds x, x ∈ set_order adds <-> x ∈ adds) ->
  analyze_directory set_order depth path_arg root ignore_folders = Ok pi ->
  forall lang,
    lang ∈ languages (stats pi) <->
    exists f, f ∈ files pi /\ is_code_file f = true
              /\ dict_get lang_map (get_extension (sf_info f)) = Some lang.
Proof.
  intros Hset Hrun lang.
  apply analyze_directory_Ok in Hrun
    as (listing & items & pi0 & _ & Hscan & _ & Hf & _ & _ & _ & _ & _ & _ & Hl).
  pose proof (scan_directory_counted _ _ _ _ _ _ _ _ Hscan (counted_empty _ _))
    as (_ & _ & _ & _ & _ & Cl).
  rewrite Hl, Hset, Cl, list_elem_of_omap, Hf. unfold file_language.
  split; intros (f & Hin & Hlang); exists f.
  - destruct (is_code_file f); [done|]. done.
  - destruct Hlang as [-> Hlang]. done.
Qed.

Lemma languages_are_those_of_code_files_witness :
  "Python" ∈ languages (stats project_a) <->
  exists f, f ∈ files project_a /\ is_code_file f = true
            /\ dict_get lang_map (get_extension (sf_info f)) = Some "Python".
Proof.
  apply (languages_are_those_of_code_files id 5 "proj" (root_of (Some listing_a)) []
           project_a).
  - intros adds x. reflexivity.
  - apply project_a_scanned.
Defined.

(** ** The scanner: the flat lists and the tree *)

Lemma scan_directory_preorder I depth listing cp rp pi items pi' :
  scan_directory I depth listing cp rp pi = Ok (items, pi') ->
  exists F, files pi' = files pi ++ F
            /\ map relative_path F = flat_map file_paths items
            /\ directories pi' = directories pi ++ flat_map dir_paths items.
Proof.
  set (P := fun (pi : project_info) (new : list item) (pi' : project_info) =>
              exists F, files pi' = files pi ++ F
                        /\ map relative_path F = flat_map file_paths new
                        /\ directories pi' = directories pi ++ flat_map dir_paths new).
  apply (scan_directory_returns I (fun _ _ _ => P) (fun _ _ _ => P)); unfold P;
    try by auto.
  - intros _ _ p. exists []. by rewrite !app_nil_r.
  - intros cp' rp' name data todo p it p1 new p' _ Hfile (F & Hf & Hp & Hd).
    apply scan_file_returns in Hfile as (-> & -> & _).
    cbn [record_file count_file files directories] in Hf, Hd.
    eexists (_ :: F). rewrite Hf, Hd, <-app_assoc. split; [done|].
    split; [|done]. cbn [map flat_map file_paths app relative_path]. by rewrite Hp.
  - intros cp' rp' name sub todo p sub_items p1 new p' _
      (F1 & Hf1 & Hp1 & Hd1) (F & Hf & Hp & Hd).
    cbn [record_directory files directories] in Hf1, Hd1.
    exists (F1 ++ F). rewrite Hf, Hf1, Hd, Hd1, <-!app_assoc. split; [done|].
    split.
    + rewrite map_app, Hp1, Hp. done.
    + cbn [flat_map dir_paths app]. by rewrite <-?app_assoc.
  - intros _ _ p. exists []. by rewrite !app_nil_r.
Qed.

(** X4. In a model returned by the scan the flat lists are the preorder
    of the structural tree: the relative paths of [files] are the paths
    of its file nodes, and [directories] are the paths of its directory
    nodes, in the order of the tree. *)
Theorem flat_lists_are_the_preorder_of_the_tree
    (set_order : list string -> list string) (depth : nat) (path_arg : string)
    (root : resolved_root) (ignore_folders : list string) (pi : project_info) :
  analyze_directory set_order depth path_arg root ignore_folders = Ok pi ->
  map relative_path (files pi) = flat_map file_paths (structure pi)
  /\ directories pi = flat_map dir_paths (structure pi).
Proof.
  intros Hrun.
  apply analyze_directory_Ok in Hrun
    as (listing & items & pi0 & _ & Hscan & Hst & Hf & Hd & _).
  apply scan_directory_preorder in Hscan as (F & HF & Hp & HD).
  simpl in HF, HD. by rewrite Hst, Hf, Hd, HF, HD.
Qed.

Lemma flat_lists_are_the_preorder_of_the_tree_witness :
  map relative_path (files project_a) = flat_map file_paths (structure project_a)
  /\ directories project_a = flat_map dir_paths (structure project_a).
Proof.
  apply (flat_lists_are_the_preorder_of_the_tree id 5 "proj"
           (root_of (Some listing_a)) [] project_a).
  apply project_a_scanned.
Defined.

(** ** The scanner: order and ignored names in the tree *)

Lemma name_sorted_names (l : list fsnode) :
  StronglySorted name_le l -> StronglySorted String.le (map node_name l).
Proof.
  induction 1 as [|x l Hs IH Hx]; simpl; constructor; [done|].
  clear Hs IH. induction Hx; simpl; constructor; done.
Qed.

Lemma name_sorted_filter (P : fsnode -> Prop) `{forall x, Decision (P x)} (l : list fsnode) :
  StronglySorted name_le l -> StronglySorted name_le (filter P l).
Proof.
  induction 1 as [|x l Hs IH Hx]; [constructor|].
  rewrite filter_cons. case_decide; [|done]. constructor; [done|].
  apply Forall_forall. intros y Hy%list_elem_of_filter.
  rewrite Forall_forall in Hx. apply Hx. by destruct Hy.
Qed.

Lemma scan_directory_tidy I depth listing cp rp pi items pi' :
  scan_directory I depth listing cp rp pi = Ok (items, pi') ->
  StronglySorted String.le (map item_name items)
  /\ Forall (fun n => should_ignore n I = false) (map item_name items)
  /\ Forall (tidy_item I) items.
Proof.
  apply (scan_directory_returns I
           (fun _ _ todo _ new _ =>
              map item_name new
              = map node_name
                  (filter (fun x => should_ignore (node_name x) I = false) todo)
              /\ Forall (tidy_item I) new)
           (fun _ _ _ _ new _ =>
              StronglySorted String.le (map item_name new)
              /\ Forall (fun n => should_ignore n I = false) (map item_name new)
              /\ Forall (tidy_item I) new)).
  - done.
  - intros _ _ x todo _ new _ Hig [Hn Ht]. split; [|done].
    rewrite filter_cons. case_decide; [congruence|done].
  - intros cp' rp' name data todo p it p1 new p' Hig Hfile [Hn Ht].
    apply scan_file_returns in Hfile as (-> & _ & _).
    rewrite filter_cons. case_decide; [|done]. cbn [map item_name node_name].
    rewrite Hn. split; [done|]. constructor; [constructor|done].
  - intros cp' rp' name sub todo p sub_items p1 new p' Hig (Hs & Hk & Hsub) [Hn Ht].
    rewrite filter_cons. case_decide; [|done]. cbn [map item_name node_name].
    rewrite Hn. split; [done|]. constructor; [by constructor|done].
  - intros _ _ _. repeat split; constructor.
  - intros _ _ l _ new _ [Hn Ht]. rewrite Hn. split; [|split; [|done]].
    + apply name_sorted_names, name_sorted_filter, sorted_listing_sorted.
    + apply Forall_forall. intros n Hin.
      apply list_elem_of_In, in_map_iff in Hin as (x & <- & Hx).
      apply list_elem_of_In, list_elem_of_filter in Hx. by destruct Hx.
Qed.

(** X5. The structural tree of a returned model is tidy: at the top and
    below every directory the children come in the order of their names,
    and no node carries a name that the ignore rules of the run (the
    defaults and the extra names) reject. *)
Theorem structure_is_sorted_and_free_of_ignored_names
    (set_order : list string -> list string) (depth : nat) (path_arg : string)
    (root : resolved_root) (ignore_folders : list string) (pi : project_info) :
  analyze_directory set_order depth path_arg root ignore_folders = Ok pi ->
  let rules := default_ignore ∪ list_to_set ignore_folders in
  StronglySorted String.le (map item_name (structure pi))
  /\ Forall (fun n => should_ignore n rules = false) (map item_name (structure pi))
  /\ Forall (tidy_item rules) (structure pi).
Proof.
  intros Hrun rules.
  apply analyze_directory_Ok in Hrun
    as (listing & items & pi0 & _ & Hscan & -> & _).
  by apply scan_directory_tidy in Hscan.
Qed.

Lemma structure_is_sorted_and_free_of_ignored_names_witness :
  StronglySorted String.le (map item_name (structure project_a))
  /\ Forall (fun n => should_ignore n (default_ignore ∪ list_to_set []) = false)
       (map item_name (structure project_a))
  /\ Forall (tidy_item (default_ignore ∪ list_to_set [])) (structure project_a).
Proof.
  apply (structure_is_sorted_and_free_of_ignored_names id 5 "proj"
           (root_of (Some listing_a)) [] project_a).
  apply project_a_scanned.
Defined.

(** ** The scanner and the renderer *)

Lemma sorted_line_names l :
  forallb fs_line_names l = true -> forallb fs_line_names (sorted_listing l) = true.
Proof.
  intros H. apply Is_true_true, forallb_True. apply Is_true_true, forallb_True in H.
  by rewrite sorted_listing_perm.
Qed.

Lemma scan_directory_line_names I depth listing cp rp pi items pi' :
  scan_directory I depth listing cp rp pi = Ok (items, pi') ->
  listing_line_names listing = true -> forallb line_names items = true.
Proof.
  apply (scan_directory_returns I
           (fun _ _ todo _ new _ =>
              forallb fs_line_names todo = true -> forallb line_names new = true)
           (fun _ _ listing _ new _ =>
              listing_line_names listing = true -> forallb line_names new = true)).
  - done.
  - intros _ _ x todo _ new _ _ Hrest Hn. cbn [forallb] in Hn.
    apply andb_true_iff in Hn as [_ Hn]. by apply Hrest.
  - intros cp' rp' name data todo p it p1 new p' _ Hfile Hrest Hn.
    apply scan_file_returns in Hfile as (-> & _ & _).
    cbn [forallb fs_line_names node_name] in Hn.
    apply andb_true_iff in Hn as [Hx Hn]. rewrite andb_true_r in Hx.
    cbn [forallb line_names item_name]. by rewrite Hx, (Hrest Hn).
  - intros cp' rp' name sub todo p sub_items p1 new p' _ Hsub Hrest Hn.
    cbn [forallb fs_line_names node_name] in Hn.
    apply andb_true_iff in Hn as [Hx Hn]. apply andb_true_iff in Hx as [Hx Hs].
    cbn [forallb line_names item_name]. rewrite Hx, (Hrest Hn), Hsub; [done|].
    by destruct sub.
  - done.
  - intros _ _ l _ new _ Hq Hn. apply Hq. by apply sorted_line_names.
Qed.

Lemma parse_tree_of_rendering (structure : list item) (is_last : bool) :
  forallb line_names structure = true ->
  parse_tree (generate_tree_view structure "" is_last) = Some (map shape_of structure).
Proof.
  intros Hn. unfold parse_tree, generate_tree_view.
  pose proof (rows_of_tree structure "" 0 "" depth_prefix_O Hn) as Hrows.
  rewrite append_nil_r in Hrows. rewrite Hrows. cbn [split_lines parse_lines].
  rewrite app_nil_r.
  pose proof (build_forest_rows (S (length (flat_map (item_rows 0) structure)))
                structure 0 []) as Hb.
  rewrite app_nil_r in Hb. rewrite Hb; [done|lia|done].
Qed.

(** X6. Scanning and rendering compose: when no entry name of the
    filesystem holds a line feed, the tree view of a returned model has
    one line for each node of its structural tree, and reading it back
    by connector shape gives the nesting of that tree. *)
Theorem tree_view_of_a_scan_reads_back
    (set_order : list string -> list string) (depth : nat) (path_arg : string)
    (root : resolved_root) (listing : option (list fsnode))
    (ignore_folders : list string) (pi : project_info) :
  analyze_directory set_order depth path_arg root ignore_folders = Ok pi ->
  root_node root = RootDirectory listing ->
  listing_line_names listing = true ->
  parse_tree (generate_tree_view (structure pi) "" true)
  = Some (map shape_of (structure pi))
  /\ length (split_lines (generate_tree_view (structure pi) "" true))
     = sum_list_with node_count (structure pi).
Proof.
  intros Hrun Hroot Hn.
  apply analyze_directory_Ok in Hrun
    as (listing' & items & pi0 & Hroot' & Hscan & -> & _).
  assert (listing' = listing) as -> by congruence.
  pose proof (scan_directory_line_names _ _ _ _ _ _ _ _ Hscan Hn) as Hl.
  split; [by apply parse_tree_of_rendering|].
  pose proof (rows_of_tree items "" 0 "" depth_prefix_O Hl) as Hrows.
  rewrite append_nil_r in Hrows. cbn [split_lines parse_lines] in Hrows.
  rewrite app_nil_r in Hrows. unfold generate_tree_view.
  assert (forall ls rows, parse_lines ls = Some rows -> length ls = length rows) as Hlen.
  { induction ls as [|l ls IH]; intros rows; cbn [parse_lines].
    - by intros [= <-].
    - destruct (parse_line (S (String.length l)) l); [|done].
      destruct (parse_lines ls); [|done].
      intros [= <-]. simpl. f_equal. by apply IH. }
  rewrite (Hlen _ _ Hrows).
  assert (forall d its, length (flat_map (item_rows d) its) = sum_list_with node_count its)
    as Hcount.
  { intros d its. revert d.
    induction its as [|it its IH]; intros d; [done|].
    cbn [flat_map sum_list_with]. rewrite length_app, IH. f_equal.
    revert d. induction it as [name path sub IHs|] using item_ind_nested; intros d;
      [|done].
    cbn [item_rows node_count length]. f_equal.
    clear -IHs. revert d. induction IHs as [|x l Hx _ IHl]; intros d; [done|].
    cbn [flat_map sum_list_with]. by rewrite length_app, Hx, IHl. }
  apply Hcount.
Qed.

Lemma tree_view_of_a_scan_reads_back_witness :
  parse_tree (generate_tree_view (structure project_a) "" true)
  = Some (map shape_of (structure project_a))
  /\ length (split_lines (generate_tree_view (structure project_a) "" true))
     = sum_list_with node_count (structure project_a).
Proof.
  apply (tree_view_of_a_scan_reads_back id 5 "proj" (root_of (Some listing_a))
           (Some listing_a) [] project_a).
  - apply project_a_scanned.
  - reflexivity.
  - reflexivity.
Defined.

(** ** The scanner and the pipeline: relative paths and their directories *)

Lemma dirname_head_no_slash (s : string) :
  has_char "/" s = false -> dirname_head s = "".
Proof. destruct s as [|a s]; [done|]. intros H. cbn [dirname_head]. by rewrite H. Qed.

Lemma dirname_head_app (a name : string) :
  has_char "/" name = false ->
  dirname_head (a +:+ "/" +:+ name) = a +:+ "/".
Proof.
  intros Hn. induction a as [|c a IH].
  - change ("" +:+ "/" +:+ name) with (String "/" name). cbn [dirname_head has_char].
    rewrite (dirname_head_no_slash name Hn). done.
  - change (String c a +:+ "/" +:+ name) with (String c (a +:+ "/" +:+ name)).
    cbn [dirname_head]. 
    assert (has_char "/" (String c (a +:+ "/" +:+ name)) = true) as ->.
    { cbn [has_char]. rewrite !has_char_app. cbn [has_char].
      rewrite Ascii.eqb_refl. simpl. by rewrite !orb_true_r. }
    by rewrite IH.
Qed.

Lemma rstrip_cons (f : ascii -> bool) (a : ascii) (s : string) :
  rstrip f (String a s)
  = if String.eqb (rstrip f s) "" && f a then "" else String a (rstrip f s).
Proof. done. Qed.

Lemma rstrip_snoc (f : ascii -> bool) (s : string) (c : ascii) :
  f c = true -> rstrip f (s +:+ String c "") = rstrip f s.
Proof.
  intros Hc. induction s as [|a s IH].
  - simpl. by rewrite Hc.
  - change (String a s +:+ String c "") with (String a (s +:+ String c "")).
    by rewrite !rstrip_cons, IH.
Qed.

(** A string that is not empty and does not end with a slash. *)
Lemma rstrip_slash_id (s : string) :
  s <> "" -> endswith s "/" = false ->
  rstrip (Ascii.eqb "/") s = s.
Proof.
  induction s as [|a s IH]; [done|]. intros _ He. cbn [endswith] in He.
  destruct (String.eqb_spec (String a s) "/") as [Heq|Hne]; [done|].
  destruct s as [|b s].
  - change (rstrip (Ascii.eqb "/") (String a ""))
      with (if Ascii.eqb "/" a then "" else String a "").
    destruct (Ascii.eqb_spec "/" a) as [<-|]; [by destruct Hne|done].
  - rewrite rstrip_cons, IH by done. done.
Qed.

Lemma endswith_app_r (a b : string) :
  b <> "" -> endswith (a +:+ b) "/" = endswith b "/".
Proof.
  intros Hb. induction a as [|c a IH]; [done|].
  change (String c a +:+ b) with (String c (a +:+ b)). cbn [endswith].
  destruct (String.eqb_spec (String c (a +:+ b)) "/") as [Heq|Hne]; [|done].
  injection Heq as _ Heq. destruct a; simpl in Heq; [by destruct Hb|done].
Qed.

Lemma plain_name_spec n :
  plain_name n = true ->
  n <> "" /\ has_char "/" n = false /\ startswith n "/" = false
  /\ endswith n "/" = false.
Proof.
  unfold plain_name. intros [Hn Hs]%andb_true_iff.
  apply negb_true_iff in Hn, Hs. apply String.eqb_neq in Hn.
  repeat split; try done.
  - apply not_true_is_false. intros [r ->]%startswith_spec.
    by simpl in Hs.
  - apply not_true_is_false. intros [r ->]%endswith_spec.
    rewrite has_char_app in Hs. simpl in Hs. by rewrite orb_true_r in Hs.
Qed.

Lemma child_relative_good rp name :
  good_relative rp -> plain_name name = true ->
  child_relative rp name <> "" /\ endswith (child_relative rp name) "/" = false.
Proof.
  intros Hrp (Hn & Hs & Hst & He)%plain_name_spec. unfold child_relative.
  destruct Hrp as [->|[Hne Hend]]; [done|].
  rewrite (proj2 (String.eqb_neq rp "")) by done.
  unfold os_path_join. rewrite Hst, (proj2 (String.eqb_neq rp "")), Hend by done.
  cbn [orb]. split.
  - destruct rp; [done|done].
  - rewrite endswith_app_r by done.
    change ("/" +:+ name) with (String "/" "" +:+ name).
    by rewrite endswith_app_r.
Qed.

(** The directory under which [generate_descriptions] groups a file that
    the scanner met in the directory with relative path [rp]. *)
Lemma dir_path_of_child rp name fi :
  good_relative rp -> plain_name name = true ->
  dir_path_of (mk_scanned_file fi (child_relative rp name))
  = if String.eqb rp "" then "root" else rp.
Proof.
  intros Hrp Hplain. pose proof Hplain as (Hn & Hs & Hst & He)%plain_name_spec.
  unfold dir_path_of, child_relative. cbn [relative_path].
  destruct Hrp as [->|[Hne Hend]].
  - simpl. unfold os_path_dirname. by rewrite (dirname_head_no_slash name Hs).
  - rewrite (proj2 (String.eqb_neq rp "")) by done.
    unfold os_path_join. rewrite Hst, (proj2 (String.eqb_neq rp "")), Hend by done.
    cbn [orb]. unfold os_path_dirname. rewrite (dirname_head_app rp name Hs).
    rewrite (rstrip_snoc _ rp "/") by done.
    rewrite (rstrip_slash_id rp) by done.
    by rewrite !(proj2 (String.eqb_neq rp "")).
Qed.

Lemma sorted_plain_names l :
  forallb fs_plain_names l = true -> forallb fs_plain_names (sorted_listing l) = true.
Proof.
  intros H. apply Is_true_true, forallb_True. apply Is_true_true, forallb_True in H.
  by rewrite sorted_listing_perm.
Qed.

Lemma scan_directory_groups I depth listing cp rp pi items pi' :
  scan_directory I depth listing cp rp pi = Ok (items, pi') ->
  listing_plain_names listing = true -> good_relative rp ->
  exists F, files pi' = files pi ++ F
            /\ Forall (fun f => dir_path_of f = (if String.eqb rp "" then "root" else rp)
                                \/ dir_path_of f ∈ flat_map dir_paths items) F.
Proof.
  set (P := fun (rp : string) (pi : project_info) (new : list item)
                (pi' : project_info) =>
              exists F, files pi' = files pi ++ F
                /\ Forall (fun f => dir_path_of f
                                    = (if String.eqb rp "" then "root" else rp)
                                    \/ dir_path_of f ∈ flat_map dir_paths new) F).
  apply (scan_directory_returns I
           (fun _ rp todo pi new pi' =>
              forallb fs_plain_names todo = true -> good_relative rp -> P rp pi new pi')
           (fun _ rp listing pi new pi' =>
              listing_plain_names listing = true -> good_relative rp -> P rp pi new pi'));
    unfold P.
  - intros _ rp' p _ _. exists []. by rewrite app_nil_r.
  - intros _ rp' x todo p new p' _ Hrest Hn Hg. cbn [forallb] in Hn.
    apply andb_true_iff in Hn as [_ Hn]. by apply Hrest.
  - intros cp' rp' name data todo p it p1 new p' _ Hfile Hrest Hn Hg.
    apply scan_file_returns in Hfile as (-> & -> & _).
    cbn [forallb fs_plain_names node_name] in Hn.
    apply andb_true_iff in Hn as [Hx Hn]. rewrite andb_true_r in Hx.
    destruct (Hrest Hn Hg) as (F & Hf & HF).
    cbn [record_file count_file files] in Hf.
    eexists (_ :: F). rewrite Hf, <-app_assoc. split; [done|].
    constructor.
    + left. by apply dir_path_of_child.
    + eapply Forall_impl; [exact HF|]. cbn [flat_map dir_paths app]. tauto.
  - intros cp' rp' name sub todo p sub_items p1 new p' _ Hsub Hrest Hn Hg.
    cbn [forallb fs_plain_names node_name] in Hn.
    apply andb_true_iff in Hn as [Hx Hn]. apply andb_true_iff in Hx as [Hx Hs].
    destruct (child_relative_good rp' name Hg Hx) as [Hne Hend].
    destruct Hsub as (F1 & Hf1 & HF1); [by destruct sub|by right|].
    destruct (Hrest Hn Hg) as (F & Hf & HF).
    cbn [record_directory files] in Hf1.
    exists (F1 ++ F). rewrite Hf, Hf1, <-app_assoc. split; [done|].
    apply Forall_app. split.
    + eapply Forall_impl; [exact HF1|]. intros f Hfd. right.
      cbn [flat_map dir_paths]. rewrite (proj2 (String.eqb_neq _ "")) in Hfd by done.
      destruct Hfd as [->|Hin]; [by left|].
      apply elem_of_app. left. by right.
    + eapply Forall_impl; [exact HF|]. intros f [Hfd|Hin]; [by left|right].
      cbn [flat_map]. apply elem_of_app. by right.
  - intros _ rp' p _ _. exists []. by rewrite app_nil_r.
  - intros _ rp' l p new p' Hq Hn Hg. apply Hq; [|done]. by apply sorted_plain_names.
Qed.

(** X7. Scanning and grouping compose: when the names of the
    filesystem are plain (not empty, no slash), every file of a returned
    model is grouped by [generate_descriptions] under [root] or under
    the relative path of a directory of the flat directory list. *)
Theorem files_are_grouped_under_listed_directories
    (set_order : list string -> list string) (depth : nat) (path_arg : string)
    (root : resolved_root) (listing : option (list fsnode))
    (ignore_folders : list string) (pi : project_info) :
  analyze_directory set_order depth path_arg root ignore_folders = Ok pi ->
  root_node root = RootDirectory listing ->
  listing_plain_names listing = true ->
  forall f, f ∈ files pi -> dir_path_of f = "root" \/ dir_path_of f ∈ directories pi.
Proof.
  intros Hrun Hroot Hn f Hin.
  apply analyze_directory_Ok in Hrun
    as (listing' & items & pi0 & Hroot' & Hscan & _ & Hf & Hd & _).
  assert (listing' = listing) as -> by congruence.
  pose proof Hscan as Hpre. apply scan_directory_preorder in Hpre as (F' & _ & _ & HD).
  apply scan_directory_groups in Hscan as (F & HF & Hall); [|done|by left].
  simpl in HF, HD. rewrite Hf, HF in Hin. rewrite Hd, HD.
  rewrite Forall_forall in Hall. by apply Hall.
Qed.

Lemma files_are_grouped_under_listed_directories_witness :
  Forall (fun f => dir_path_of f = "root" \/ dir_path_of f ∈ directories project_a)
    (files project_a).
Proof.
  apply Forall_forall.
  apply (files_are_grouped_under_listed_directories id 5 "proj"
           (root_of (Some listing_a)) (Some listing_a) [] project_a).
  - apply project_a_scanned.
  - reflexivity.
  - reflexivity.
Defined.

(** ** The ignore rules: more rules, and a dead default *)

(** X8. Rules only add: a name ignored under a set of rules is ignored
    under every larger set. The rules of a scan are the defaults and the
    caller's names, so a caller can never make the scan keep what the
    defaults reject. *)
Theorem should_ignore_monotone (name : string) (rules rules' : gset string) :
  rules ⊆ rules' -> should_ignore name rules = true ->
  should_ignore name rules' = true
  /\ forall ignore_folders,
       rules = default_ignore ->
       should_ignore name (default_ignore ∪ list_to_set ignore_folders) = true.
Proof.
  intros Hsub Hig.
  assert (forall R : gset string, rules ⊆ R -> should_ignore name R = true) as Hm.
  { intros R HR. apply should_ignore_true.
    apply should_ignore_true in Hig as [Hin|(rule & Hin & Hm)].
    - left. by apply HR.
    - right. exists rule. split; [by apply HR|done]. }
  split; [by apply Hm|]. intros extra ->. apply Hm. apply union_subseteq_l.
Qed.

Lemma should_ignore_monotone_witness :
  should_ignore "Node_Modules" ({[ "node_modules" ]} ∪ {[ "public" ]}) = true.
Proof.
  pose proof (should_ignore_monotone "Node_Modules" {[ "node_modules" ]}
                ({[ "node_modules" ]} ∪ {[ "public" ]})) as H.
  destruct H as [H _]; [apply union_subseteq_l|by vm_compute|exact H].
Defined.

(** X9. The default rule [.DS_Store] is dead: it has capital letters
    and names are lower-cased, so the default rules ignore exactly what
    they ignore without it, and an entry named [.DS_Store] (in any case)
    is not ignored by them. *)
Theorem default_rule_DS_Store_never_applies (name : string) :
  should_ignore name default_ignore
  = should_ignore name (default_ignore ∖ {[ ".DS_Store" ]})
  /\ (lower name = ".ds_store" -> should_ignore name default_ignore = false).
Proof.
  assert (has_upper ".DS_Store" = true) as Hup by done.
  pose proof (uppercase_rule_not_name name _ Hup) as Hne.
  pose proof (uppercase_rule_no_match name _ Hup) as Hnm.
  split.
  - apply eq_true_iff_eq. rewrite !should_ignore_true. split.
    + intros [Hx|(r & Hx & Hm)].
      * left. apply elem_of_difference. rewrite elem_of_singleton.
        split; [exact Hx|exact Hne].
      * right. exists r. split; [|exact Hm]. apply elem_of_difference.
        rewrite elem_of_singleton. split; [exact Hx|]. intros ->. congruence.
    + intros [Hx|(r & Hx & Hm)].
      * left. apply elem_of_difference in Hx as [Hx _]. exact Hx.
      * right. exists r. split; [|exact Hm].
        apply elem_of_difference in Hx as [Hx _]. exact Hx.
  - intros Hl. unfold should_ignore. rewrite Hl. by vm_compute.
Qed.

Lemma default_rule_DS_Store_never_applies_witness :
  should_ignore ".DS_Store" default_ignore = false.
Proof.
  apply (default_rule_DS_Store_never_applies ".DS_Store"). reflexivity.
Defined.

(** ** File records: the preview *)




(** ** Extraction of the fenced block: what comes out *)


Lemma lstrip_id (f : ascii -> bool) (s : string) :
  match s with EmptyString => True | String c _ => f c = false end ->
  lstrip f s = s.
Proof. destruct s as [|c s]; simpl; [done|]. by intros ->. Qed.










(** ** Extraction of the fenced block: what goes in comes out *)


Lemma backtick_eqb (c : ascii) : Ascii.eqb c "`" = false -> c <> "`"%char.
Proof. intros H ->. by rewrite Ascii.eqb_refl in H. Qed.












(** ** The description pipeline: grouping and batching *)

Lemma dict_set_keys {V} (d : list (string * V)) k v :
  map fst (dict_set d k v)
  = if bool_decide (k ∈ map fst d) then map fst d else map fst d ++ [k].
Proof.
  induction d as [|[k' v'] d IH]; [done|]. cbn [dict_set map fst].
  destruct (String.eqb_spec k' k) as [->|Hne].
  - cbn [map fst]. rewrite bool_decide_eq_true_2; [done|by left].
  - cbn [map fst]. rewrite IH. case_bool_decide as Hin.
    + rewrite bool_decide_eq_true_2; [done|by right].
    + rewrite bool_decide_eq_false_2; [done|].
      intros [?|?]%elem_of_cons; [congruence|done].
Qed.

Lemma dict_keys_get {V} (d : list (string * V)) k :
  k ∈ map fst d <-> dict_get d k <> None.
Proof.
  split; [|apply dict_get_keys].
  induction d as [|[k' v] d IH]; simpl; [by intros ?%elem_of_nil|].
  intros [->|Hin]%elem_of_cons.
  - by rewrite String.eqb_refl.
  - destruct (String.eqb k' k); [done|by apply IH].
Qed.

Lemma group_files_snoc fs f :
  group_files (fs ++ [f])
  = dict_set (group_files fs) (dir_path_of f)
      (default [] (dict_get (group_files fs) (dir_path_of f)) ++ [f]).
Proof. unfold group_files. by rewrite foldl_snoc. Qed.

Lemma group_files_lookup (fs : list scanned_file) (d : string) :
  dict_get (group_files fs) d
  = match filter (fun f => dir_path_of f = d) fs with
    | [] => None
    | f :: l => Some (f :: l)
    end.
Proof.
  induction fs as [|f fs IH] using rev_ind; [done|].
  rewrite group_files_snoc, filter_app, filter_cons, filter_nil.
  destruct (decide (dir_path_of f = d)) as [<-|Hne].
  - rewrite dict_get_set_eq, IH.
    destruct (filter _ fs) as [|x l]; simpl; done.
  - rewrite dict_get_set_ne, IH by done. by rewrite app_nil_r.
Qed.

Lemma group_files_keys_NoDup (fs : list scanned_file) :
  NoDup (map fst (group_files fs)).
Proof.
  induction fs as [|f fs IH] using rev_ind; [constructor|].
  rewrite group_files_snoc, dict_set_keys. case_bool_decide as Hin; [done|].
  apply NoDup_app. split; [done|]. split; [|apply NoDup_singleton].
  intros x Hx ->%list_elem_of_singleton. done.
Qed.

Lemma group_files_keys (fs : list scanned_file) (d : string) :
  d ∈ map fst (group_files fs) <-> exists f, f ∈ fs /\ dir_path_of f = d.
Proof.
  rewrite dict_keys_get, group_files_lookup. split.
  - destruct (filter _ fs) as [|f l] eqn:Hf; [done|]. intros _. exists f.
    assert (f ∈ filter (fun f => dir_path_of f = d) fs) as Hin by (rewrite Hf; by left).
    apply list_elem_of_filter in Hin as [? ?]. done.
  - intros (f & Hin & Hd).
    assert (f ∈ filter (fun f => dir_path_of f = d) fs) as Hin'
      by (by apply list_elem_of_filter).
    destruct (filter _ fs); [by apply elem_of_nil in Hin'|done].
Qed.

(** X13. [files_by_dir] is a partition of the flat file list by parent
    directory: the entry of a directory holds exactly the files grouped
    under it, in their original order; a directory without such files
    has no entry; and no key occurs twice. *)
Theorem files_by_dir_is_a_partition (fs : list scanned_file) :
  NoDup (map fst (group_files fs))
  /\ (forall d, dict_get (group_files fs) d
                = match filter (fun f => dir_path_of f = d) fs with
                  | [] => None
                  | f :: l => Some (f :: l)
                  end)
  /\ (forall d, d ∈ map fst (group_files fs) <-> exists f, f ∈ fs /\ dir_path_of f = d).
Proof.
  split; [apply group_files_keys_NoDup|]. split; [apply group_files_lookup|].
  apply group_files_keys.
Qed.

Lemma files_by_dir_is_a_partition_witness :
  NoDup (map fst (group_files (files project_a))).
Proof. exact (proj1 (files_by_dir_is_a_partition (files project_a))). Defined.

Lemma dir_order_elem files_by_dir dirs d :
  d ∈ dir_order files_by_dir dirs <-> d ∈ map fst files_by_dir \/ d ∈ dirs.
Proof.
  unfold dir_order. rewrite elem_of_app, list_elem_of_filter. split.
  - intros [?|[_ ?]]; auto.
  - intros [?|Hd]; [by left|].
    destruct (dict_get files_by_dir d) eqn:Hg.
    + left. apply dict_keys_get. by rewrite Hg.
    + right. done.
Qed.

(** X14. Whatever the collaborator answers, the keys of the directory
    descriptions are exactly the directories under which some file is
    grouped and the directories of the flat directory list. *)
Theorem directory_keys_are_exact (c : collaborators) (pi : project_info) (d : string) :
  is_Some (desc_directories (generate_descriptions c pi) !! d)
  <-> (exists f, f ∈ files pi /\ dir_path_of f = d) \/ d ∈ directories pi.
Proof.
  unfold generate_descriptions. rewrite run_directories.
  rewrite <-group_files_keys, <-dir_order_elem.
  case_bool_decide as Hin.
  - split; [done|]. intros _. by eexists.
  - cbn [desc_directories]. rewrite lookup_empty. split; [by intros [x Hx]|done].
Qed.

Lemma directory_keys_are_exact_witness :
  is_Some (desc_directories (generate_descriptions good_stub project_a) !! "locked").
Proof.
  apply (directory_keys_are_exact good_stub project_a "locked"). right. by_compute.
Defined.

(** X15. The batches of a list of [n] names: there are [(n + 9) / 10]
    of them, the batch of index [i] is the slice from [10 i] of at most
    10 names, every batch but the last has exactly 10, and an empty list
    gives no batch, so that no request is made. *)
Theorem file_batches_shape (file_list : list string) :
  length (file_batches file_list) = (length file_list + 9) / 10
  /\ (forall i b, file_batches file_list !! i = Some b ->
        b = take 10 (drop (i * 10) file_list)
        /\ (S i < length (file_batches file_list) -> length b = 10))
  /\ (file_batches file_list = [] <-> file_list = []).
Proof.
  unfold file_batches, py_range_step, batch_size. rewrite map_map, length_map, length_seq.
  replace (length file_list + 10 - 1) with (length file_list + 9) by lia.
  pose proof (Nat.div_mod_eq (length file_list + 9) 10) as Hd.
  pose proof (Nat.mod_upper_bound (length file_list + 9) 10) as Hm.
  split; [done|]. split.
  - intros i b Hb.
    change (map ?f ?l) with (f <$> l) in Hb. rewrite list_lookup_fmap in Hb.
    destruct (seq 0 _ !! i) as [k|] eqn:Hk; [|done].
    apply lookup_seq in Hk as [-> Hlt]. simpl in Hb. injection Hb as <-.
    split; [done|]. intros Hlast. rewrite length_take, length_drop. lia.
  - split.
    + intros Hnil. apply (f_equal length) in Hnil.
      rewrite length_map, length_seq in Hnil. simpl in Hnil.
      destruct file_list; [done|]. simpl in *. lia.
    + intros ->. done.
Qed.

Lemma file_batches_shape_witness :
  length (file_batches (first_batch ++ second_batch))
  = (length (first_batch ++ second_batch) + 9) / 10.
Proof. exact (proj1 (file_batches_shape (first_batch ++ second_batch))). Defined.

(** ** The description pipeline: failures *)















